(** * bladeRF sink: burst/tag state machine, failure policy, lifecycle

    A shallow embedding of [lib/bladerf/bladerf_sink_c.cc]
    ([start], [stop], [work], [transmit_with_tags]) and the properties of
    its specification.

    Conventions of the embedding:
    - C integers are [Z]; unsigned 64-bit subtraction and [int] arithmetic
      are written with their wrap-around ([wrap_uint64], [wrap_int]);
    - the device is an oracle [hw : nat -> Z]: [hw i] is the status returned
      by the hardware call issued when [i] calls have been issued before;
      every call is appended to the ghost field [calls] of the sink;
    - a local that the C++ code declares without initialiser holds [None]
      until it is assigned; a function whose behaviour is undefined
      (out-of-bounds copy, branch on an indeterminate value) returns [None];
    - a C++ exception is the constructor [Throw] of [outcome];
    - floating point is not modelled: [float] is a type parameter and the
      VOLK conversion kernel a function parameter. *)

From Stdlib Require Import ZArith String List Bool Lia.
From stdpp Require Import base list.
Import ListNotations.
Local Open Scope Z_scope.

(** ** Machine integers *)

(** [uint64_t] arithmetic result. *)
Definition wrap_uint64 (z : Z) : Z := z mod 2 ^ 64.

(** [int] (32-bit two's complement) arithmetic result, also the value of
    [static_cast<int>] on a wider unsigned value. *)
Definition wrap_int (z : Z) : Z := (z + 2 ^ 31) mod 2 ^ 32 - 2 ^ 31.

Definition INT_MAX : Z := 2 ^ 31 - 1.

(** [size_t] value of an [int] operand (usual arithmetic conversions in
    [noutput_items/nstreams]). *)
Definition size_t_of_int (z : Z) : Z := z mod 2 ^ 64.

(** ** Constants of the collaborating libraries

    libbladeRF.h: metadata flags and error code; gnuradio/block.h:
    [WORK_DONE]. *)

Definition BLADERF_META_FLAG_TX_BURST_START : Z := Z.shiftl 1 0.
Definition BLADERF_META_FLAG_TX_BURST_END : Z := Z.shiftl 1 1.
Definition BLADERF_META_FLAG_TX_NOW : Z := Z.shiftl 1 2.
Definition BLADERF_ERR_INVAL : Z := -3.
Definition WORK_DONE : Z := -1.

(** ** Data model *)

(** [struct bladerf_metadata]: the two fields the sink reads or writes.
    [memset(&meta, 0, sizeof(meta))] is [meta_zero]. *)
Record bladerf_metadata := {
  timestamp : Z;
  flags : Z
}.

Definition meta_zero : bladerf_metadata := {| timestamp := 0; flags := 0 |}.

Definition set_flags (f : Z) (m : bladerf_metadata) : bladerf_metadata :=
  {| timestamp := timestamp m; flags := f |}.

(** [gr::tag_t]: absolute stream offset ([uint64_t]) and symbolic key. *)
Record tag_t := {
  offset : Z;
  key : string
}.

(** The buffer argument of [bladerf_sync_tx]: [&samples[off]] (an [int16_t]
    index into the converted buffer) or the local array [zeros]. *)
Inductive tx_buffer :=
| Samples (off : Z)
| Zeros.

(** One call of [bladerf_sync_tx(dev, buf, count, meta, timeout)];
    [tx_meta = None] is the [NULL] metadata pointer. *)
Record transfer := {
  tx_buf : tx_buffer;
  tx_count : Z;
  tx_meta : option bladerf_metadata
}.

(** Calls into libbladeRF made by the sink. *)
Inductive hw_call :=
| SyncConfig
| EnableModule (ch : nat) (enable : bool)
| SyncTx (t : transfer).

(** [int16_t const zeros[8] = { 0 }]. *)
Definition zeros : list Z := [0; 0; 0; 0; 0; 0; 0; 0].

(** Result of a function that may throw. *)
Inductive outcome (A : Type) :=
| Returned (a : A)
| Throw (status : Z) (msg : string).
Arguments Returned {A} a.
Arguments Throw {A} status msg.

(** Configuration held by [bladerf_common] and constant while the sink
    functions run. *)
Record config := {
  _samples_per_buffer : nat;
  format_is_meta : bool;        (* BLADERF_FORMAT_SC16_Q11_META == _format *)
  nstreams : nat;               (* num_streams(_layout) *)
  max_channels : nat;           (* get_max_channels() *)
  channel_enable : nat -> bool  (* get_channel_enable(BLADERF_CHANNEL_TX(ch)) *)
}.

Section Sink.

Context {float : Type}.

(** [gr_complex]: real and imaginary part. *)
Definition gr_complex : Type := float * float.

(** The mutable members of [bladerf_sink_c]. A buffer is [None] when the
    pointer is [NULL]; a cell is [None] while its content is
    indeterminate. [calls] is the ghost trace of hardware calls. *)
Record sink := {
  _16icbuf : option (list (option Z));
  _32fcbuf : option (list (option gr_complex));
  _in_burst : bool;
  _running : bool;
  _failures : Z;
  calls : list hw_call
}.

Definition set_in_burst (b : bool) (s : sink) : sink :=
  {| _16icbuf := _16icbuf s; _32fcbuf := _32fcbuf s; _in_burst := b;
     _running := _running s; _failures := _failures s; calls := calls s |}.

Definition set_running (b : bool) (s : sink) : sink :=
  {| _16icbuf := _16icbuf s; _32fcbuf := _32fcbuf s; _in_burst := _in_burst s;
     _running := b; _failures := _failures s; calls := calls s |}.

Definition set_failures (n : Z) (s : sink) : sink :=
  {| _16icbuf := _16icbuf s; _32fcbuf := _32fcbuf s; _in_burst := _in_burst s;
     _running := _running s; _failures := n; calls := calls s |}.

Definition set_bufs (b16 : option (list (option Z)))
    (b32 : option (list (option gr_complex))) (s : sink) : sink :=
  {| _16icbuf := b16; _32fcbuf := b32; _in_burst := _in_burst s;
     _running := _running s; _failures := _failures s; calls := calls s |}.

Definition log_call (c : hw_call) (s : sink) : sink :=
  {| _16icbuf := _16icbuf s; _32fcbuf := _32fcbuf s; _in_burst := _in_burst s;
     _running := _running s; _failures := _failures s;
     calls := calls s ++ [c] |}.

(** ** The device *)

Variable hw : nat -> Z.

Definition hw_issue (c : hw_call) (s : sink) : Z * sink :=
  (hw (length (calls s)), log_call c s).

Definition bladerf_sync_tx (buf : tx_buffer) (count : Z)
    (meta : option bladerf_metadata) (s : sink) : Z * sink :=
  hw_issue (SyncTx {| tx_buf := buf; tx_count := count; tx_meta := meta |}) s.

Definition bladerf_sync_config (s : sink) : Z * sink :=
  hw_issue SyncConfig s.

Definition bladerf_enable_module (ch : nat) (enable : bool) (s : sink)
  : Z * sink :=
  hw_issue (EnableModule ch enable) s.

(** ** [transmit_with_tags] *)

Definition INVALID_IDX : Z := -1.

(** The locals of [transmit_with_tags]. *)
Record locals := {
  status : option Z;
  count : Z;
  start_idx : Z;
  end_idx : Z;
  meta : bladerf_metadata
}.

Definition set_status (v : Z) (l : locals) : locals :=
  {| status := Some v; count := count l; start_idx := start_idx l;
     end_idx := end_idx l; meta := meta l |}.

Definition set_count (v : Z) (l : locals) : locals :=
  {| status := status l; count := v; start_idx := start_idx l;
     end_idx := end_idx l; meta := meta l |}.

Definition set_start_idx (v : Z) (l : locals) : locals :=
  {| status := status l; count := count l; start_idx := v;
     end_idx := end_idx l; meta := meta l |}.

Definition set_end_idx (v : Z) (l : locals) : locals :=
  {| status := status l; count := count l; start_idx := start_idx l;
     end_idx := v; meta := meta l |}.

Definition set_meta_flags (f : Z) (l : locals) : locals :=
  {| status := status l; count := count l; start_idx := start_idx l;
     end_idx := end_idx l; meta := set_flags f (meta l) |}.

(** Control flow of the tag loop: fall through to the next tag, or
    [return r] from the function. The locals at the [return] are kept so
    that they can be observed. *)
Inductive flow :=
| Continue (l : locals) (s : sink)
| Return (r : option Z) (l : locals) (s : sink).

(** [static_cast<int>(tag.offset - nitems_read(0))]. *)
Definition rel_offset (nitems_read : Z) (tag : tag_t) : Z :=
  wrap_int (wrap_uint64 (offset tag - nitems_read)).

(** Locals on entry of the tag loop (lines 289-304). *)
Definition init_locals (noutput_items : Z) : locals :=
  {| status := None; count := 0; start_idx := 0;
     end_idx := wrap_int (noutput_items - 1); meta := meta_zero |}.

(** Body of [BOOST_FOREACH(gr::tag_t tag, tags)] (lines 328-397). *)
Definition tag_body (nitems_read noutput_items : Z) (tag : tag_t)
    (l : locals) (s : sink) : flow :=
  if String.eqb (key tag) "tx_sob" then
    if _in_burst s then
      Return (Some BLADERF_ERR_INVAL) l s
    else
      let l := set_start_idx (rel_offset nitems_read tag) l in
      let l := set_meta_flags
                 (Z.lor (flags (meta l))
                    (Z.lor BLADERF_META_FLAG_TX_NOW
                           BLADERF_META_FLAG_TX_BURST_START)) l in
      Continue l (set_in_burst true s)
  else if String.eqb (key tag) "tx_eob" then
    if negb (_in_burst s) then
      Return (Some BLADERF_ERR_INVAL) l s
    else
      let l := set_end_idx (rel_offset nitems_read tag) l in
      if (start_idx l =? INVALID_IDX) || (start_idx l >? end_idx l) then
        Return (Some BLADERF_ERR_INVAL) l s
      else
        let l := set_count (wrap_int (wrap_int (end_idx l - start_idx l) + 1)) l in
        let '(st, s) := bladerf_sync_tx (Samples (wrap_int (2 * start_idx l)))
                          (count l) (Some (meta l)) s in
        let l := set_status st l in
        if negb (st =? 0) then
          Return (Some st) l s
        else
          let l := set_meta_flags
                     (Z.land (flags (meta l))
                        (Z.lnot (Z.lor BLADERF_META_FLAG_TX_NOW
                                       BLADERF_META_FLAG_TX_BURST_START))) l in
          let l := set_meta_flags
                     (Z.lor (flags (meta l)) BLADERF_META_FLAG_TX_BURST_END) l in
          let '(st, s) := bladerf_sync_tx Zeros 4 (Some (meta l)) s in
          let l := set_status st l in
          (* Reset our state *)
          let l := set_start_idx INVALID_IDX l in
          let l := set_end_idx (wrap_int (noutput_items - 1)) l in
          let l := set_meta_flags 0 l in
          let s := set_in_burst false s in
          if negb (st =? 0) then
            Return (Some st) l s
          else
            Continue l s
  else
    Continue l s.

(** The tag loop. *)
Fixpoint tag_loop (nitems_read noutput_items : Z) (tags : list tag_t)
    (l : locals) (s : sink) : flow :=
  match tags with
  | [] => Continue l s
  | tag :: rest =>
      match tag_body nitems_read noutput_items tag l s with
      | Continue l' s' => tag_loop nitems_read noutput_items rest l' s'
      | Return r l' s' => Return r l' s'
      end
  end.

(** Lines 316-326: the batch carries no tag. Inside a burst the whole
    buffer is sent and its status returned; outside, a warning is printed
    and control falls through. *)
Definition no_tags_check (tags : list tag_t) (noutput_items : Z)
    (l : locals) (s : sink) : flow :=
  if (length tags =? 0)%nat then
    if _in_burst s then
      let '(st, s) := bladerf_sync_tx (Samples 0) noutput_items
                        (Some (meta l)) s in
      Return (Some st) l s
    else
      Continue l s
  else
    Continue l s.

(** Lines 399-410: transmit a burst that is still open, then
    [return status]. *)
Definition after_loop (l : locals) (s : sink) : flow :=
  if _in_burst s then
    let l := set_count (wrap_int (wrap_int (end_idx l - start_idx l) + 1)) l in
    let '(st, s) := bladerf_sync_tx (Samples (wrap_int (2 * start_idx l)))
                      (count l) (Some (meta l)) s in
    let l := set_status st l in
    Return (status l) l s
  else
    Return (status l) l s.

(** Sequencing of two stretches of the function body. *)
Definition flow_bind (f : flow) (k : locals -> sink -> flow) : flow :=
  match f with
  | Continue l s => k l s
  | Return r l s => Return r l s
  end.

(** The whole function, with the locals at the [return]. [tags] is what
    [get_tags_in_window(tags, 0, 0, noutput_items)] delivered. *)
Definition transmit_with_tags_flow (nitems_read : Z) (tags : list tag_t)
    (noutput_items : Z) (s : sink) : flow :=
  flow_bind (no_tags_check tags noutput_items (init_locals noutput_items) s)
    (fun l s =>
       flow_bind (tag_loop nitems_read noutput_items tags l s) after_loop).

(** [int bladerf_sink_c::transmit_with_tags(samples, noutput_items)]:
    the returned value ([None] when it is the unassigned [status]) and the
    sink afterwards. [samples] is always [_16icbuf]. *)
Definition transmit_with_tags (nitems_read : Z) (tags : list tag_t)
    (noutput_items : Z) (s : sink) : option Z * sink :=
  match transmit_with_tags_flow nitems_read tags noutput_items s with
  | Continue l s => (status l, s)
  | Return r _ s => (r, s)
  end.

(** ** [start] and [stop] *)

Variable cfg : config.

(** [for (size_t ch = 0; ch < get_max_channels(); ++ch)] with its
    [bladerf_enable_module] call and status check, over the channel
    numbers still to visit. *)
Fixpoint enable_modules (chs : list nat) (s : sink) : outcome unit * sink :=
  match chs with
  | [] => (Returned tt, s)
  | ch :: rest =>
      let '(st, s) := bladerf_enable_module ch (channel_enable cfg ch) s in
      if negb (st =? 0) then
        (Throw st "bladerf_enable_module failed", s)
      else
        enable_modules rest s
  end.

(** [volk_malloc] of [n] cells: a fresh block of indeterminate content. *)
Definition volk_malloc {A : Type} (n : nat) : option (list (option A)) :=
  Some (replicate n None).

(** [bool bladerf_sink_c::start()]. *)
Definition start (s : sink) : outcome bool * sink :=
  let s := set_in_burst false s in
  let '(st, s) := bladerf_sync_config s in
  if negb (st =? 0) then
    (Throw st "bladerf_sync_config failed", s)
  else
    match enable_modules (seq 0 (max_channels cfg)) s with
    | (Throw st msg, s) => (Throw st msg, s)
    | (Returned _, s) =>
        let s := set_bufs (volk_malloc (2 * _samples_per_buffer cfg))
                          (volk_malloc (_samples_per_buffer cfg)) s in
        let s := set_running true s in
        (Returned true, s)
    end.

(** [bool bladerf_sink_c::stop()]. *)
Definition stop (s : sink) : outcome bool * sink :=
  if negb (_running s) then
    (Returned true, s)
  else
    let s := set_running false s in
    match enable_modules (seq 0 (max_channels cfg)) s with
    | (Throw st msg, s) => (Throw st msg, s)
    | (Returned _, s) => (Returned true, set_bufs None None s)
    end.

(** ** [work] *)

(** What the scheduler hands to one [work] call: the item count, one
    input array per stream, the tags of the window and [nitems_read(0)]. *)
Record batch := {
  noutput_items : Z;
  input_items : list (list gr_complex);
  tags : list tag_t;
  nitems_read : Z
}.

(** State of the interleaving loops: the buffer written through
    [intl_out], the index [intl_out] has reached, and for each stream the
    index its pointer [in[n]] has reached. *)
Record intl_state := {
  intl_buf : list (option gr_complex);
  intl_out : nat;
  in_pos : list nat
}.

(** [memcpy(intl_out++, in[n]++, sizeof(gr_complex))]. *)
Definition copy_one (input : list (list gr_complex)) (n : nat)
    (st : intl_state) : option intl_state :=
  match in_pos st !! n, input !! n with
  | Some p, Some ch =>
      match ch !! p with
      | Some x =>
          if (intl_out st <? length (intl_buf st))%nat then
            Some {| intl_buf := <[intl_out st := Some x]> (intl_buf st);
                    intl_out := S (intl_out st);
                    in_pos := <[n := S p]> (in_pos st) |}
          else None
      | None => None
      end
  | _, _ => None
  end.

(** [for (size_t n = 0; n < nstreams; ++n)], over the stream numbers
    still to visit. *)
Fixpoint copy_frame (input : list (list gr_complex)) (ns : list nat)
    (st : intl_state) : option intl_state :=
  match ns with
  | [] => Some st
  | n :: rest =>
      match copy_one input n st with
      | Some st' => copy_frame input rest st'
      | None => None
      end
  end.

(** [for (size_t i = 0; i < (noutput_items/nstreams); ++i)], [frames]
    iterations to go. *)
Fixpoint copy_frames (input : list (list gr_complex)) (streams : nat)
    (frames : nat) (st : intl_state) : option intl_state :=
  match frames with
  | O => Some st
  | S frames' =>
      match copy_frame input (seq 0 streams) st with
      | Some st' => copy_frames input streams frames' st'
      | None => None
      end
  end.

Definition sizeof_gr_complex : Z := 8.

(** Lines 243-255: fill [_32fcbuf] from the input streams. *)
Definition copy_input (streams : nat) (n_items : Z)
    (input : list (list gr_complex)) (buf : list (option gr_complex))
  : option (list (option gr_complex)) :=
  if (1 <? streams)%nat then
    let frames := Z.to_nat (size_t_of_int n_items / Z.of_nat streams) in
    match copy_frames input streams frames
            {| intl_buf := buf; intl_out := 0;
               in_pos := replicate (length input) 0%nat |} with
    | Some st => Some (intl_buf st)
    | None => None
    end
  else
    let n := Z.to_nat
               (wrap_uint64 (size_t_of_int n_items * sizeof_gr_complex)
                / sizeof_gr_complex) in
    match input !! 0%nat with
    | Some ch =>
        if (n <=? length ch)%nat && (n <=? length buf)%nat then
          Some ((Some <$> take n ch) ++ drop n buf)
        else None
    | None => None
    end.

(** The kernel [volk_32f_s32f_convert_16i] with [SCALING_FACTOR] applied
    to one float. *)
Variable volk_convert : float -> Z.

(** [reinterpret_cast<float const *>(_32fcbuf)]. *)
Definition as_floats (buf : list (option gr_complex)) : list (option float) :=
  flat_map (fun c => match c with
                     | Some (re, im) => [Some re; Some im]
                     | None => [None; None]
                     end) buf.

(** [volk_32f_s32f_convert_16i(out, in, SCALING_FACTOR, num_points)]. *)
Definition volk_32f_s32f_convert_16i (out : list (option Z))
    (inp : list (option float)) (num_points : nat)
  : option (list (option Z)) :=
  if (num_points <=? length inp)%nat && (num_points <=? length out)%nat then
    Some ((option_map volk_convert <$> take num_points inp)
            ++ drop num_points out)
  else None.

(** [unsigned int] value of an [int] argument. *)
Definition wrap_uint32 (z : Z) : Z := z mod 2 ^ 32.

(** Lines 240-260: copy and convert into the scratch buffers. *)
Definition work_convert (b : batch) (s : sink) : option sink :=
  match _32fcbuf s, _16icbuf s with
  | Some b32, Some b16 =>
      match copy_input (nstreams cfg) (noutput_items b) (input_items b) b32 with
      | Some b32' =>
          match volk_32f_s32f_convert_16i b16 (as_floats b32')
                  (Z.to_nat (wrap_uint32 (wrap_int (2 * noutput_items b)))) with
          | Some b16' => Some (set_bufs (Some b16') (Some b32') s)
          | None => None
          end
      | None => None
      end
  | _, _ => None
  end.

(** Lines 262-268: transmit the samples from the temp buffer. *)
Definition work_transmit (b : batch) (s : sink) : option Z * sink :=
  if format_is_meta cfg then
    transmit_with_tags (nitems_read b) (tags b) (noutput_items b) s
  else
    let '(st, s) := bladerf_sync_tx (Samples 0) (noutput_items b) None s in
    (Some st, s).

(** The threshold is declared in bladerf_common.h; the model takes it as
    a parameter. *)
Variable MAX_CONSECUTIVE_FAILURES : Z.

(** Lines 270-283: handle failure. The counter [_failures] is a member
    of [bladerf_common]; it is kept unbounded here. *)
Definition work_handle (noutput : Z) (st : Z) (s : sink) : Z * sink :=
  if negb (st =? 0) then
    let s := set_failures (_failures s + 1) s in
    if _failures s >=? MAX_CONSECUTIVE_FAILURES then
      (WORK_DONE, s)
    else
      (noutput, s)
  else
    (noutput, set_failures 0 s).

(** Lines 240-268: the status on which line 271 branches, and the sink
    at that point; [None] when the behaviour is undefined. *)
Definition work_status (b : batch) (s : sink) : option (Z * sink) :=
  match work_convert b s with
  | Some s =>
      match work_transmit b s with
      | (Some st, s) => Some (st, s)
      | (None, _) => None
      end
  | None => None
  end.

(** [int bladerf_sink_c::work(noutput_items, input_items, output_items)]. *)
Definition work (b : batch) (s : sink) : option (Z * sink) :=
  if negb (_running s) then
    Some (0, s)
  else
    match work_status b s with
    | Some (st, s) => Some (work_handle (noutput_items b) st s)
    | None => None
    end.

(** A run of [work] calls on a running sink: for each call the status it
    branched on and the value it returned, and the sink at the end. *)
Fixpoint work_run (bs : list batch) (s : sink)
  : option (list (Z * Z) * sink) :=
  match bs with
  | [] => Some ([], s)
  | b :: rest =>
      match work_status b s, work b s with
      | Some (st, _), Some (r, s') =>
          match work_run rest s' with
          | Some (tr, s'') => Some ((st, r) :: tr, s'')
          | None => None
          end
      | _, _ => None
      end
  end.

End Sink.

Arguments gr_complex : clear implicits.
Arguments sink : clear implicits.
Arguments flow : clear implicits.
Arguments batch : clear implicits.
Arguments intl_state : clear implicits.

(** * Vocabulary of the specification *)

(** A tag the sink does not recognise: neither burst marker. *)
Definition unrecognized (t : tag_t) : Prop :=
  key t <> "tx_sob"%string /\ key t <> "tx_eob"%string.

(** Metadata flags of the first transfer of a burst: start-now and
    burst-start. *)
Definition flags_burst_start : Z :=
  Z.lor BLADERF_META_FLAG_TX_NOW BLADERF_META_FLAG_TX_BURST_START.

(** The complex samples of the batch that a transfer out of [samples]
    covers: index of the first and of the last one (a complex sample is
    two [int16_t]). *)
Definition tx_span (t : transfer) : option (Z * Z) :=
  match tx_buf t with
  | Samples off => Some (off / 2, off / 2 + tx_count t - 1)
  | Zeros => None
  end.

(** The [int16_t] values a flush transfer of [n] samples reads from
    [zeros]. *)
Definition zeros_payload (n : Z) : list Z := take (Z.to_nat (2 * n)) zeros.

(** A tag that violates the burst protocol in the state the loop has
    reached: a start inside a burst, an end outside a burst, or an end
    whose start index is unset or lies after it. *)
Definition protocol_error {float : Type} (nitems_read : Z) (t : tag_t)
    (l : locals) (s : sink float) : Prop :=
  (key t = "tx_sob"%string /\ _in_burst s = true) \/
  (key t = "tx_eob"%string /\ _in_burst s = false) \/
  (key t = "tx_eob"%string /\ _in_burst s = true /\
   (start_idx l = INVALID_IDX \/ start_idx l > rel_offset nitems_read t)).

(** The sink carried by a control-flow result. *)
Definition flow_sink {float : Type} (f : flow float) : sink float :=
  match f with
  | Continue _ s => s
  | Return _ _ s => s
  end.

(** Members of the sink that [transmit_with_tags] never writes. *)
Definition same_control {float : Type} (s s' : sink float) : Prop :=
  _running s' = _running s /\ _failures s' = _failures s /\
  _16icbuf s' = _16icbuf s /\ _32fcbuf s' = _32fcbuf s.

(** Number of failing calls in a row at the end of a history of
    statuses, the most recent status first. *)
Fixpoint consecutive_failures (recent_first : list Z) : Z :=
  match recent_first with
  | [] => 0
  | st :: older =>
      if st =? 0 then 0 else 1 + consecutive_failures older
  end.

(** Two streams taken in round-robin, one sample of each per time step:
    [a0, b0, a1, b1, ...]. *)
Fixpoint round_robin2 {A : Type} (a b : list A) : list A :=
  match a, b with
  | x :: a', y :: b' => x :: y :: round_robin2 a' b'
  | _, _ => []
  end.

(** * Sample instances

    Concrete devices, sinks and batches, with samples taken to be
    integers and a conversion kernel that scales by 2000. *)

Module Sample.

Definition convert (x : Z) : Z := 2000 * x.

(** A device on which every call succeeds. *)
Definition hw_ok : nat -> Z := fun _ => 0.

(** A device whose first [n] calls fail with status -1. *)
Definition hw_fail_first (n : nat) : nat -> Z :=
  fun i => if (i <? n)%nat then -1 else 0.

(** The sink as the constructor leaves it. *)
Definition fresh : sink Z :=
  {| _16icbuf := None; _32fcbuf := None; _in_burst := false;
     _running := false; _failures := 0; calls := [] |}.

(** A started sink with room for four samples, outside a burst. *)
Definition idle : sink Z :=
  {| _16icbuf := Some (replicate 8 None); _32fcbuf := Some (replicate 4 None);
     _in_burst := false; _running := true; _failures := 0; calls := [] |}.

(** The same sink in the middle of a burst. *)
Definition mid_burst : sink Z := set_in_burst true idle.

Definition sob (off : Z) : tag_t := {| offset := off; key := "tx_sob" |}.
Definition eob (off : Z) : tag_t := {| offset := off; key := "tx_eob" |}.
Definition rx_time (off : Z) : tag_t := {| offset := off; key := "rx_time" |}.

(** One stream, no metadata, one channel. *)
Definition cfg_plain : config :=
  {| _samples_per_buffer := 4; format_is_meta := false; nstreams := 1;
     max_channels := 1; channel_enable := fun _ => true |}.

(** A batch of two samples on one stream, without tags. *)
Definition two_samples : batch Z :=
  {| noutput_items := 2; input_items := [[(1, 2); (3, 4)]]; tags := [];
     nitems_read := 0 |}.

(** The locals and the sink once the loop has passed a burst-start at
    relative offset 5 of a 32-sample batch entered by [idle]. *)
Definition locals_after_sob : locals :=
  {| status := None; count := 0; start_idx := 5; end_idx := 31;
     meta := {| timestamp := 0; flags := 5 |} |}.

(** Three failing calls and a successful one on [two_samples]: what each
    call saw and returned, and the sink at the end. *)
Definition four_calls : list (Z * Z) := [(-1, 2); (-1, 2); (-1, -1); (0, 2)].

Definition plain_tx : hw_call :=
  SyncTx {| tx_buf := Samples 0; tx_count := 2; tx_meta := None |}.

Definition after_four_calls : sink Z :=
  {| _16icbuf := Some [Some 2000; Some 4000; Some 6000; Some 8000;
                       None; None; None; None];
     _32fcbuf := Some [Some (1, 2); Some (3, 4); None; None];
     _in_burst := false; _running := true; _failures := 0;
     calls := [plain_tx; plain_tx; plain_tx; plain_tx] |}.

End Sample.

(** * The antenna setter *)

Section Antenna.

Context {float : Type}.
Variable hw : nat -> Z.

(** [bladerf_common::set_antenna(BLADERF_TX, chan, antenna)] lives in the
    base class: it rewires the channel map held in the configuration, or
    throws on an antenna it does not know. The members of the sink are
    private to [bladerf_sink_c] and out of its reach. It is a parameter
    here. *)
Variable common_set_antenna : config -> outcome config.

(** [std::string bladerf_sink_c::set_antenna(antenna, chan)] (lines
    509-525): the configuration and the sink afterwards. The string it
    returns is [get_antenna(chan)], a pure lookup, left out. *)
Definition set_antenna (cfg : config) (s : sink float)
  : outcome unit * (config * sink float) :=
  let _was_running := _running s in
  match (if _was_running then stop hw cfg s else (Returned true, s)) with
  | (Throw st msg, s) => (Throw st msg, (cfg, s))
  | (Returned _, s) =>
      match common_set_antenna cfg with
      | Throw st msg => (Throw st msg, (cfg, s))
      | Returned cfg' =>
          match (if _was_running then start hw cfg' s
                 else (Returned true, s)) with
          | (Throw st msg, s) => (Throw st msg, (cfg', s))
          | (Returned _, s) => (Returned tt, (cfg', s))
          end
      end
  end.

End Antenna.

(** * Further vocabulary *)

(** A tag with one of the two keys the sink acts on. *)
Definition is_burst_tag (t : tag_t) : bool :=
  String.eqb (key t) "tx_sob" || String.eqb (key t) "tx_eob".

(** Whether a burst is open after the tags of a batch, given whether one
    was open before: the last burst marker decides. *)
Definition burst_after (open : bool) (tags : list tag_t) : bool :=
  fold_left (fun b t => if String.eqb (key t) "tx_sob" then true
                        else if String.eqb (key t) "tx_eob" then false
                        else b) tags open.

(** A transfer call that carries metadata. *)
Definition is_meta_tx (c : hw_call) : Prop :=
  match c with
  | SyncTx t => tx_meta t <> None
  | _ => False
  end.

(** The [bladerf_enable_module] calls of one pass over the channels. *)
Definition enable_calls (cfg : config) : list hw_call :=
  map (fun ch => EnableModule ch (channel_enable cfg ch))
      (seq 0 (max_channels cfg)).

(** The wire format of a run of complex samples: I then Q, converted. *)
Definition iq_words {float : Type} (conv : float -> Z)
    (l : list (gr_complex float)) : list Z :=
  flat_map (fun c => [conv (fst c); conv (snd c)]) l.

(** The transfer of the samples [first..last] of the batch with the given
    flags, and the flush transfer that closes a burst. *)
Definition tx_range (first last flags : Z) : hw_call :=
  SyncTx {| tx_buf := Samples (2 * first); tx_count := last - first + 1;
            tx_meta := Some {| timestamp := 0; flags := flags |} |}.

Definition tx_flush : hw_call :=
  SyncTx {| tx_buf := Zeros; tx_count := 4;
            tx_meta := Some {| timestamp := 0;
                               flags := BLADERF_META_FLAG_TX_BURST_END |} |}.

(** Appending calls to the trace of a sink. *)
Definition log_calls {float : Type} (cs : list hw_call) (s : sink float)
  : sink float :=
  fold_left (fun s c => log_call c s) cs s.

(** The trace of [s'] is that of [s] followed by at most [n] calls, all
    of them transfers with metadata. *)
Definition grows_by {float : Type} (n : nat) (s s' : sink float) : Prop :=
  exists new, calls s' = calls s ++ new /\ Forall is_meta_tx new /\
              (length new <= n)%nat.

(** * Further sample instances *)

Module Scenario.

(** Two streams, no metadata, two channels. *)
Definition cfg_two : config :=
  {| _samples_per_buffer := 4; format_is_meta := false; nstreams := 2;
     max_channels := 2; channel_enable := fun ch => (ch =? 0)%nat |}.

(** One stream with metadata. *)
Definition cfg_meta : config :=
  {| _samples_per_buffer := 4; format_is_meta := true; nstreams := 1;
     max_channels := 1; channel_enable := fun _ => true |}.

(** A base class that accepts every antenna and one that refuses. *)
Definition antenna_ok : config -> outcome config := fun cfg => Returned cfg.
Definition antenna_bad : config -> outcome config :=
  fun _ => Throw (-1) "Invalid antenna".

(** A position far into the stream. *)
Definition far : Z := 2 ^ 40.

(** Four items on each of two streams, of which a call reads two. *)
Definition two_by_four : batch Z :=
  {| noutput_items := 4;
     input_items := [[(1, 2); (3, 4); (9, 9); (9, 9)];
                     [(5, 6); (7, 8); (9, 9); (9, 9)]];
     tags := []; nitems_read := 0 |}.

(** Two samples with a burst-start on the first. *)
Definition two_with_sob : batch Z :=
  {| noutput_items := 2; input_items := [[(1, 2); (3, 4)]];
     tags := [Sample.sob 0]; nitems_read := 0 |}.

(** [Sample.mid_burst] after the copy and conversion of two samples. *)
Definition mid_burst_converted : sink Z :=
  set_bufs (Some [Some 2000; Some 4000; Some 6000; Some 8000;
                  None; None; None; None])
           (Some [Some (1, 2); Some (3, 4); None; None]) Sample.mid_burst.

End Scenario.

(** * Properties *)

(** ** Machine integers and tags *)

Lemma wrap_int_id (z : Z) : - 2 ^ 31 <= z <= INT_MAX -> wrap_int z = z.
Proof.
  unfold wrap_int, INT_MAX. intros Hz.
  rewrite Z.mod_small by lia. lia.
Qed.

Section TagMachine.

Context {float : Type}.
Variable hw : nat -> Z.
Variables nitems_read noutput_items : Z.

Implicit Types (s : sink float) (l : locals) (t : tag_t).

Lemma tag_body_unrecognized t l s :
  unrecognized t ->
  tag_body hw nitems_read noutput_items t l s = Continue l s.
Proof.
  intros [Hs He]. unfold tag_body.
  apply String.eqb_neq in Hs. apply String.eqb_neq in He.
  now rewrite Hs, He.
Qed.

Lemma tag_loop_unrecognized ts l s :
  Forall unrecognized ts ->
  tag_loop hw nitems_read noutput_items ts l s = Continue l s.
Proof.
  induction 1 as [|t ts Ht _ IH]; simpl; [reflexivity|].
  now rewrite tag_body_unrecognized.
Qed.

Lemma tag_loop_app pre post l s :
  tag_loop hw nitems_read noutput_items (pre ++ post) l s =
  flow_bind (tag_loop hw nitems_read noutput_items pre l s)
            (tag_loop hw nitems_read noutput_items post).
Proof.
  revert l s. induction pre as [|t pre IH]; intros l s; simpl; [reflexivity|].
  destruct (tag_body hw nitems_read noutput_items t l s); simpl; auto.
Qed.

Lemma no_tags_check_cons t ts l s :
  no_tags_check hw (t :: ts) noutput_items l s = Continue l s.
Proof. reflexivity. Qed.

Lemma no_tags_check_nonempty pre t post l s :
  no_tags_check hw (pre ++ t :: post) noutput_items l s = Continue l s.
Proof. destruct pre; reflexivity. Qed.

End TagMachine.

Section BurstClaims.

Context {float : Type}.
Variable hw : nat -> Z.

Implicit Types (s : sink float) (l : locals) (t : tag_t).

Lemma transmit_with_tags_drop (nitems_read noutput_items : Z) s :
  _in_burst s = false ->
  transmit_with_tags hw nitems_read [] noutput_items s = (None, s).
Proof.
  intros Hb.
  unfold transmit_with_tags, transmit_with_tags_flow, no_tags_check,
    after_loop, flow_bind.
  simpl. rewrite Hb. simpl. now rewrite Hb.
Qed.

(** C1. A batch without tags, outside a burst: no transfer is issued and
    the sink is left as it was, but the value returned is the local
    [status], which no statement has assigned on this path: it is
    indeterminate, not the zero status of a success. *)
Theorem transmit_with_tags_idle_no_tags (nitems_read noutput_items : Z) s :
  _in_burst s = false ->
  transmit_with_tags hw nitems_read [] noutput_items s = (None, s) /\
  fst (transmit_with_tags hw nitems_read [] noutput_items s) <> Some 0.
Proof.
  intros Hb. rewrite transmit_with_tags_drop by exact Hb.
  split; [reflexivity|discriminate].
Qed.

(** C6. A batch without tags, inside a burst: exactly one transfer, of the
    whole batch from its first sample, with zeroed metadata; its status is
    the value returned. *)
Theorem transmit_with_tags_in_burst_no_tags (nitems_read noutput_items : Z) s :
  _in_burst s = true ->
  transmit_with_tags hw nitems_read [] noutput_items s =
  (Some (hw (length (calls s))),
   log_call (SyncTx {| tx_buf := Samples 0; tx_count := noutput_items;
                       tx_meta := Some meta_zero |}) s).
Proof.
  intros Hb.
  unfold transmit_with_tags, transmit_with_tags_flow, no_tags_check,
    flow_bind.
  simpl. now rewrite Hb.
Qed.

Lemma tag_body_sob nitems_read noutput_items t l s :
  key t = "tx_sob"%string ->
  _in_burst s = false ->
  tag_body hw nitems_read noutput_items t l s =
  Continue
    (set_meta_flags (Z.lor (flags (meta l)) flags_burst_start)
       (set_start_idx (rel_offset nitems_read t) l))
    (set_in_burst true s).
Proof.
  intros Hk Hb. unfold tag_body. now rewrite Hk, Hb.
Qed.

Lemma after_loop_open l s :
  _in_burst s = true ->
  after_loop hw l s =
  let n := wrap_int (wrap_int (end_idx l - start_idx l) + 1) in
  let st := hw (length (calls s)) in
  Return (Some st) (set_status st (set_count n l))
    (log_call (SyncTx {| tx_buf := Samples (wrap_int (2 * start_idx l));
                         tx_count := n; tx_meta := Some (meta l) |}) s).
Proof.
  intros Hb. unfold after_loop. now rewrite Hb.
Qed.

Lemma tag_body_eob nitems_read noutput_items t l s :
  key t = "tx_eob"%string ->
  _in_burst s = true ->
  start_idx l <> INVALID_IDX ->
  start_idx l <= rel_offset nitems_read t ->
  tag_body hw nitems_read noutput_items t l s =
  let e := rel_offset nitems_read t in
  let n := wrap_int (wrap_int (e - start_idx l) + 1) in
  let st1 := hw (length (calls s)) in
  let s1 := log_call (SyncTx {| tx_buf := Samples (wrap_int (2 * start_idx l));
                                tx_count := n;
                                tx_meta := Some (meta l) |}) s in
  if negb (st1 =? 0) then
    Return (Some st1) (set_status st1 (set_count n (set_end_idx e l))) s1
  else
    let f := Z.lor (Z.land (flags (meta l)) (Z.lnot flags_burst_start))
                   BLADERF_META_FLAG_TX_BURST_END in
    let st2 := hw (S (length (calls s))) in
    let s2 := set_in_burst false
                (log_call (SyncTx {| tx_buf := Zeros; tx_count := 4;
                                     tx_meta := Some (set_flags f (meta l)) |})
                   s1) in
    let l2 := {| status := Some st2; count := n; start_idx := INVALID_IDX;
                 end_idx := wrap_int (noutput_items - 1);
                 meta := set_flags 0 (meta l) |} in
    if negb (st2 =? 0) then Return (Some st2) l2 s2 else Continue l2 s2.
Proof.
  intros Hk Hb Hs Hle. unfold tag_body. rewrite Hk, Hb.
  cbn [String.eqb Ascii.eqb Bool.eqb negb set_end_idx start_idx end_idx].
  replace (start_idx l =? INVALID_IDX) with false
    by (symmetry; apply Z.eqb_neq; exact Hs).
  replace (start_idx l >? rel_offset nitems_read t) with false
    by (symmetry; rewrite Z.gtb_ltb; apply Z.ltb_ge; exact Hle).
  cbn [orb]. unfold bladerf_sync_tx, hw_issue. cbv zeta.
  cbn [set_count count meta start_idx end_idx calls log_call].
  destruct (hw (length (calls s)) =? 0); cbn [negb]; [|reflexivity].
  rewrite length_app. cbn [length]. rewrite Nat.add_1_r.
  destruct (hw (S (length (calls s))) =? 0); reflexivity.
Qed.

(** C3. A batch of 32 samples with a burst-start at relative offset 5
    followed by a burst-end at relative offset 20, entered outside a
    burst, the transfers succeeding: exactly two transfers, first the 16
    samples 5..20 flagged start-now and burst-start, then 4 zero-valued
    samples flagged burst-end only; the sink is outside a burst
    afterwards. *)
Theorem transmit_with_tags_sob_eob (nitems_read : Z) (t1 t2 : tag_t) s :
  _in_burst s = false ->
  key t1 = "tx_sob"%string ->
  rel_offset nitems_read t1 = 5 ->
  key t2 = "tx_eob"%string ->
  rel_offset nitems_read t2 = 20 ->
  hw (length (calls s)) = 0 ->
  hw (S (length (calls s))) = 0 ->
  let tx1 := {| tx_buf := Samples (2 * 5); tx_count := 16;
                tx_meta := Some {| timestamp := 0;
                                   flags := flags_burst_start |} |} in
  let tx2 := {| tx_buf := Zeros; tx_count := 4;
                tx_meta := Some {| timestamp := 0;
                                   flags := BLADERF_META_FLAG_TX_BURST_END |} |} in
  let r := transmit_with_tags hw nitems_read [t1; t2] 32 s in
  fst r = Some 0 /\
  calls (snd r) = calls s ++ [SyncTx tx1; SyncTx tx2] /\
  tx_span tx1 = Some (5, 20) /\
  zeros_payload (tx_count tx2) = [0; 0; 0; 0; 0; 0; 0; 0] /\
  Z.land flags_burst_start BLADERF_META_FLAG_TX_BURST_END = 0 /\
  _in_burst (snd r) = false.
Proof.
  intros Hb Hk1 Hr1 Hk2 Hr2 Hw1 Hw2 tx1 tx2 r.
  assert (E : r = (Some 0,
                   set_in_burst false
                     (log_call (SyncTx tx2)
                        (log_call (SyncTx tx1) (set_in_burst true s))))).
  { subst r. unfold transmit_with_tags, transmit_with_tags_flow.
    rewrite no_tags_check_cons. cbn [flow_bind tag_loop].
    rewrite tag_body_sob by assumption.
    rewrite tag_body_eob;
      [ | assumption | reflexivity
        | cbn [set_meta_flags set_start_idx start_idx]; rewrite Hr1; discriminate
        | cbn [set_meta_flags set_start_idx start_idx]; rewrite Hr1, Hr2; lia ].
    cbv zeta.
    cbn [set_meta_flags set_start_idx start_idx meta flags init_locals
           set_flags meta_zero timestamp calls set_in_burst].
    rewrite Hr1, Hr2, Hw1, Hw2. cbn [Z.eqb negb flow_bind].
    unfold after_loop. cbn [_in_burst set_in_burst status].
    reflexivity. }
  rewrite E. cbn [fst snd]. repeat split; try reflexivity.
  cbn [calls set_in_burst log_call]. now rewrite <- app_assoc.
Qed.

(** C5. A batch of [N] samples whose only recognised tag is a burst-start
    at relative offset [k], entered outside a burst: exactly one transfer,
    of the samples [k..N-1], flagged start-now and burst-start; the sink is
    in a burst afterwards. *)
Theorem transmit_with_tags_open_burst
    (nitems_read N k : Z) (pre post : list tag_t) t s :
  _in_burst s = false ->
  0 <= k < N ->
  2 * N <= INT_MAX ->
  Forall unrecognized pre ->
  key t = "tx_sob"%string ->
  rel_offset nitems_read t = k ->
  Forall unrecognized post ->
  let tx := {| tx_buf := Samples (2 * k); tx_count := N - k;
               tx_meta := Some {| timestamp := 0;
                                  flags := flags_burst_start |} |} in
  let s' := snd (transmit_with_tags hw nitems_read (pre ++ t :: post) N s) in
  transmit_with_tags hw nitems_read (pre ++ t :: post) N s =
    (Some (hw (length (calls s))), log_call (SyncTx tx) (set_in_burst true s)) /\
  calls s' = calls s ++ [SyncTx tx] /\
  tx_span tx = Some (k, N - 1) /\
  _in_burst s' = true.
Proof.
  intros Hb Hk HN Hpre Hkey Hrel Hpost tx s'.
  assert (E : transmit_with_tags hw nitems_read (pre ++ t :: post) N s =
              (Some (hw (length (calls s))),
               log_call (SyncTx tx) (set_in_burst true s))).
  { unfold transmit_with_tags, transmit_with_tags_flow.
    rewrite no_tags_check_nonempty. cbn [flow_bind].
    rewrite tag_loop_app, (tag_loop_unrecognized _ _ _ pre) by assumption.
    cbn [flow_bind tag_loop].
    rewrite tag_body_sob by assumption.
    rewrite tag_loop_unrecognized by assumption. cbn [flow_bind].
    rewrite after_loop_open by reflexivity.
    cbv zeta. subst tx. rewrite Hrel. cbn [init_locals set_meta_flags
      set_start_idx set_count set_flags meta flags start_idx end_idx
      timestamp meta_zero calls set_in_burst].
    unfold INT_MAX in HN.
    rewrite (wrap_int_id (N - 1)) by (unfold INT_MAX; lia).
    rewrite (wrap_int_id (N - 1 - k)) by (unfold INT_MAX; lia).
    rewrite (wrap_int_id (N - 1 - k + 1)) by (unfold INT_MAX; lia).
    rewrite (wrap_int_id (2 * k)) by (unfold INT_MAX; lia).
    replace (N - 1 - k + 1) with (N - k) by lia.
    reflexivity. }
  subst s'. rewrite E. cbn [snd]. split; [reflexivity|].
  split; [reflexivity|]. split; [|reflexivity].
  unfold tx_span, tx. cbn [tx_buf tx_count].
  replace (2 * k / 2) with k by (rewrite Z.mul_comm, Z.div_mul; lia).
  do 2 f_equal. lia.
Qed.

(** C4. A tag that violates the burst protocol makes the function
    return the invalid-state code at once: the tags after it have no
    influence, and the sink is exactly as the tags before it left it (no
    transfer for the offending tag, [_in_burst] not reset); of the locals
    only [end_idx] may have been written. *)
Theorem transmit_with_tags_protocol_error
    (nitems_read N : Z) (pre post : list tag_t) t l1 s s1 :
  tag_loop hw nitems_read N pre (init_locals N) s = Continue l1 s1 ->
  protocol_error nitems_read t l1 s1 ->
  transmit_with_tags hw nitems_read (pre ++ t :: post) N s =
    (Some BLADERF_ERR_INVAL, s1) /\
  BLADERF_ERR_INVAL <> 0 /\
  exists l',
    transmit_with_tags_flow hw nitems_read (pre ++ t :: post) N s =
      Return (Some BLADERF_ERR_INVAL) l' s1 /\
    start_idx l' = start_idx l1 /\ meta l' = meta l1.
Proof.
  intros Hpre Herr.
  assert (E : exists l',
             tag_body hw nitems_read N t l1 s1 =
               Return (Some BLADERF_ERR_INVAL) l' s1 /\
             start_idx l' = start_idx l1 /\ meta l' = meta l1).
  { unfold tag_body.
    destruct Herr as [[Hk Hb]|[[Hk Hb]|(Hk & Hb & Hidx)]]; rewrite Hk, Hb;
      cbn [String.eqb Ascii.eqb Bool.eqb negb].
    - exists l1. auto.
    - exists l1. auto.
    - exists (set_end_idx (rel_offset nitems_read t) l1).
      cbn [set_end_idx start_idx end_idx meta].
      replace ((start_idx l1 =? INVALID_IDX)
               || (start_idx l1 >? rel_offset nitems_read t)) with true; auto.
      symmetry. apply orb_true_iff.
      destruct Hidx as [Hi|Hi]; [left; now apply Z.eqb_eq|right].
      rewrite Z.gtb_ltb. apply Z.ltb_lt. lia. }
  destruct E as (l' & Hbody & Hstart & Hmeta).
  assert (F : transmit_with_tags_flow hw nitems_read (pre ++ t :: post) N s =
              Return (Some BLADERF_ERR_INVAL) l' s1).
  { unfold transmit_with_tags_flow.
    rewrite no_tags_check_nonempty. cbn [flow_bind].
    rewrite tag_loop_app, Hpre. cbn [flow_bind tag_loop].
    now rewrite Hbody. }
  split; [unfold transmit_with_tags; now rewrite F|].
  split; [discriminate|]. exists l'. auto.
Qed.

(** C10. At a burst-end tag both failure paths return the raw status,
    but in different states. If the data transfer fails, the function
    returns with [_in_burst] still true, [start_idx] and the metadata
    flags as they were, [end_idx] at the tag, and one transfer issued. If
    the data transfer succeeds and the flush of zero samples fails, the
    function returns with [_in_burst] false, the indices and flags reset,
    and both transfers issued. *)
Theorem transmit_with_tags_eob_failure
    (nitems_read N : Z) (pre post : list tag_t) t l1 s s1 :
  tag_loop hw nitems_read N pre (init_locals N) s = Continue l1 s1 ->
  key t = "tx_eob"%string ->
  _in_burst s1 = true ->
  start_idx l1 <> INVALID_IDX ->
  start_idx l1 <= rel_offset nitems_read t ->
  let st1 := hw (length (calls s1)) in
  let st2 := hw (S (length (calls s1))) in
  st1 <> 0 \/ st2 <> 0 ->
  let tx1 := {| tx_buf := Samples (wrap_int (2 * start_idx l1));
                tx_count := wrap_int (wrap_int (rel_offset nitems_read t
                                                - start_idx l1) + 1);
                tx_meta := Some (meta l1) |} in
  let tx2 := {| tx_buf := Zeros; tx_count := 4;
                tx_meta :=
                  Some (set_flags
                          (Z.lor (Z.land (flags (meta l1))
                                         (Z.lnot flags_burst_start))
                                 BLADERF_META_FLAG_TX_BURST_END)
                          (meta l1)) |} in
  exists l' s',
    transmit_with_tags_flow hw nitems_read (pre ++ t :: post) N s =
      Return (Some (if st1 =? 0 then st2 else st1)) l' s' /\
    transmit_with_tags hw nitems_read (pre ++ t :: post) N s =
      (Some (if st1 =? 0 then st2 else st1), s') /\
    if st1 =? 0 then
      _in_burst s' = false /\
      start_idx l' = INVALID_IDX /\
      end_idx l' = wrap_int (N - 1) /\
      flags (meta l') = 0 /\
      calls s' = calls s1 ++ [SyncTx tx1; SyncTx tx2]
    else
      _in_burst s' = true /\
      start_idx l' = start_idx l1 /\
      end_idx l' = rel_offset nitems_read t /\
      flags (meta l') = flags (meta l1) /\
      calls s' = calls s1 ++ [SyncTx tx1].
Proof.
  intros Hpre Hk Hb Hs Hle st1 st2 Hfail tx1 tx2.
  pose proof (tag_body_eob nitems_read N t l1 s1 Hk Hb Hs Hle) as Hbody.
  cbv zeta in Hbody. fold st1 st2 tx1 in Hbody. fold tx2 in Hbody.
  assert (F : forall r l' s',
             tag_body hw nitems_read N t l1 s1 = Return r l' s' ->
             transmit_with_tags_flow hw nitems_read (pre ++ t :: post) N s =
               Return r l' s' /\
             transmit_with_tags hw nitems_read (pre ++ t :: post) N s = (r, s')).
  { intros r l' s' Hret.
    assert (G : transmit_with_tags_flow hw nitems_read (pre ++ t :: post) N s =
                Return r l' s').
    { unfold transmit_with_tags_flow.
      rewrite no_tags_check_nonempty. cbn [flow_bind].
      rewrite tag_loop_app, Hpre. cbn [flow_bind tag_loop].
      now rewrite Hret. }
    split; [exact G|]. unfold transmit_with_tags. now rewrite G. }
  destruct (st1 =? 0) eqn:E1; cbn [negb] in Hbody.
  - assert (E2 : (st2 =? 0) = false).
    { apply Z.eqb_neq. apply Z.eqb_eq in E1. destruct Hfail; [contradiction|assumption]. }
    rewrite E2 in Hbody. cbn [negb] in Hbody.
    destruct (F _ _ _ Hbody) as [G1 G2].
    eexists _, _. split; [exact G1|]. split; [exact G2|].
    cbn [_in_burst set_in_burst start_idx end_idx meta set_flags flags calls
           log_call].
    repeat split. now rewrite <- app_assoc.
  - destruct (F _ _ _ Hbody) as [G1 G2].
    exists (set_status st1
              (set_count (tx_count tx1)
                 (set_end_idx (rel_offset nitems_read t) l1))),
           (log_call (SyncTx tx1) s1).
    split; [exact G1|]. split; [exact G2|].
    cbn [_in_burst set_status set_count set_end_idx start_idx end_idx meta
           calls log_call]. auto.
Qed.

End BurstClaims.

(** ** What [transmit_with_tags] leaves alone *)

Section Frame.

Context {float : Type}.
Variable hw : nat -> Z.
Variables nitems_read noutput_items : Z.

Implicit Types (s : sink float) (l : locals) (t : tag_t).

Lemma same_control_refl s : same_control s s.
Proof. unfold same_control. tauto. Qed.

Lemma same_control_trans s1 s2 s3 :
  same_control s1 s2 -> same_control s2 s3 -> same_control s1 s3.
Proof. unfold same_control. intuition congruence. Qed.

Lemma tag_body_frame t l s :
  same_control s (flow_sink (tag_body hw nitems_read noutput_items t l s)).
Proof.
  unfold tag_body, bladerf_sync_tx, hw_issue, same_control.
  repeat match goal with
         | |- context [if ?b then _ else _] => destruct b
         end; simpl; tauto.
Qed.

Lemma tag_loop_frame ts l s :
  same_control s (flow_sink (tag_loop hw nitems_read noutput_items ts l s)).
Proof.
  revert l s. induction ts as [|t ts IH]; intros l s; simpl.
  - apply same_control_refl.
  - pose proof (tag_body_frame t l s) as Hb.
    destruct (tag_body hw nitems_read noutput_items t l s) as [l' s'|r l' s'];
      simpl in *; [|exact Hb].
    eapply same_control_trans; [exact Hb|apply IH].
Qed.

Lemma after_loop_frame l s : same_control s (flow_sink (after_loop hw l s)).
Proof.
  unfold after_loop, bladerf_sync_tx, hw_issue, same_control.
  destruct (_in_burst s); simpl; tauto.
Qed.

Lemma transmit_with_tags_frame ts s :
  same_control s (snd (transmit_with_tags hw nitems_read ts noutput_items s)).
Proof.
  assert (H : same_control s
                (flow_sink (transmit_with_tags_flow hw nitems_read ts
                              noutput_items s))).
  { unfold transmit_with_tags_flow, no_tags_check, bladerf_sync_tx, hw_issue.
    destruct ((length ts =? 0)%nat); [destruct (_in_burst s) eqn:Hb|];
      cbn [flow_bind flow_sink].
    - unfold same_control. simpl. tauto.
    - pose proof (tag_loop_frame ts (init_locals noutput_items) s) as Hl.
      destruct (tag_loop hw nitems_read noutput_items ts
                  (init_locals noutput_items) s) as [l' s'|r l' s'];
        cbn [flow_bind flow_sink] in *; [|exact Hl].
      eapply same_control_trans; [exact Hl|apply after_loop_frame].
    - pose proof (tag_loop_frame ts (init_locals noutput_items) s) as Hl.
      destruct (tag_loop hw nitems_read noutput_items ts
                  (init_locals noutput_items) s) as [l' s'|r l' s'];
        cbn [flow_bind flow_sink] in *; [|exact Hl].
      eapply same_control_trans; [exact Hl|apply after_loop_frame]. }
  unfold transmit_with_tags.
  destruct (transmit_with_tags_flow hw nitems_read ts noutput_items s);
    exact H.
Qed.

End Frame.

(** ** Lifecycle: [start] and [stop] *)

Section Lifecycle.

Context {float : Type}.
Variable hw : nat -> Z.
Variable cfg : config.

Implicit Types (s : sink float).

(** What the channel loop leaves alone, and how the trace grows. *)
Lemma enable_modules_frame chs s :
  let s' := snd (enable_modules hw cfg chs s) in
  _in_burst s' = _in_burst s /\ _running s' = _running s /\
  _failures s' = _failures s /\
  _16icbuf s' = _16icbuf s /\ _32fcbuf s' = _32fcbuf s.
Proof.
  revert s. induction chs as [|ch chs IH]; intros s; simpl; [tauto|].
  destruct (hw (length (calls s)) =? 0); simpl; [|tauto].
  specialize (IH (log_call (EnableModule ch (channel_enable cfg ch)) s)).
  simpl in IH. exact IH.
Qed.

Lemma enable_modules_ok chs s :
  (forall i, (i < length chs)%nat -> hw (length (calls s) + i)%nat = 0) ->
  fst (enable_modules hw cfg chs s) = Returned tt.
Proof.
  revert s. induction chs as [|ch chs IH]; intros s Hok; simpl; [reflexivity|].
  pose proof (Hok 0%nat) as H0. rewrite Nat.add_0_r in H0.
  rewrite H0 by (simpl; lia). simpl.
  apply IH. intros i Hi. simpl. rewrite length_app. simpl.
  replace (length (calls s) + 1 + i)%nat with (length (calls s) + S i)%nat by lia.
  apply Hok. simpl. lia.
Qed.

Lemma start_in_burst s : _in_burst (snd (start hw cfg s)) = false.
Proof.
  unfold start, bladerf_sync_config, hw_issue. simpl.
  destruct (hw (length (calls s)) =? 0); simpl; [|reflexivity].
  set (s1 := log_call SyncConfig (set_in_burst false s)).
  pose proof (enable_modules_frame (seq 0 (max_channels cfg)) s1) as (Hb & _).
  destruct (enable_modules hw cfg (seq 0 (max_channels cfg)) s1) as [[u|st msg] s2];
    simpl in *; exact Hb.
Qed.

Lemma stop_in_burst s : _in_burst (snd (stop hw cfg s)) = _in_burst s.
Proof.
  unfold stop. destruct (_running s); simpl; [|reflexivity].
  pose proof (enable_modules_frame (seq 0 (max_channels cfg))
                (set_running false s)) as (Hb & _).
  destruct (enable_modules hw cfg (seq 0 (max_channels cfg))
              (set_running false s)) as [[u|st msg] s2];
    simpl in *; exact Hb.
Qed.

Lemma stop_not_running s : _running (snd (stop hw cfg s)) = false.
Proof.
  unfold stop. destruct (_running s) eqn:Hr; simpl; [|exact Hr].
  pose proof (enable_modules_frame (seq 0 (max_channels cfg))
                (set_running false s)) as (_ & Hrun & _).
  destruct (enable_modules hw cfg (seq 0 (max_channels cfg))
              (set_running false s)) as [[u|st msg] s2];
    simpl in *; exact Hrun.
Qed.

Lemma stop_stopped s : _running s = false -> stop hw cfg s = (Returned true, s).
Proof. intros Hr. unfold stop. now rewrite Hr. Qed.

(** C9, as amended. [stop] on a stopped sink makes no hardware call,
    touches no buffer and returns [true]; after any first [stop] a second
    one is such a call; and the first one returns [true] whenever the
    channel calls it makes succeed. *)
Theorem stop_idempotent s :
  let r1 := stop hw cfg s in
  let r2 := stop hw cfg (snd r1) in
  (_running s = false -> r1 = (Returned true, s)) /\
  r2 = (Returned true, snd r1) /\
  ((forall i, (i < max_channels cfg)%nat -> hw (length (calls s) + i)%nat = 0) ->
   fst r1 = Returned true).
Proof.
  intros r1 r2. split; [apply stop_stopped|].
  split; [apply stop_stopped, stop_not_running|].
  intros Hok. subst r1. unfold stop.
  destruct (_running s); simpl; [|reflexivity].
  pose proof (enable_modules_ok (seq 0 (max_channels cfg))
                (set_running false s)) as Hen.
  rewrite length_seq in Hen. specialize (Hen Hok).
  destruct (enable_modules hw cfg (seq 0 (max_channels cfg))
              (set_running false s)) as [[u|st msg] s2];
    simpl in *; [reflexivity|discriminate].
Qed.

End Lifecycle.

(** ** [work]: frame and failure policy *)

Section Work.

Context {float : Type}.
Variable hw : nat -> Z.
Variable cfg : config.
Variable volk_convert : float -> Z.
Variable MAX_CONSECUTIVE_FAILURES : Z.

Implicit Types (s : sink float) (b : batch float).

Lemma work_convert_frame b s s1 :
  work_convert cfg volk_convert b s = Some s1 ->
  _running s1 = _running s /\ _failures s1 = _failures s /\
  _in_burst s1 = _in_burst s /\ calls s1 = calls s.
Proof.
  unfold work_convert. intros H.
  destruct (_32fcbuf s); [|discriminate].
  destruct (_16icbuf s); [|discriminate].
  destruct (copy_input _ _ _ _); [|discriminate].
  destruct (volk_32f_s32f_convert_16i _ _ _ _); [|discriminate].
  injection H as <-. simpl. tauto.
Qed.

Lemma work_status_frame b s st s1 :
  work_status hw cfg volk_convert b s = Some (st, s1) ->
  _running s1 = _running s /\ _failures s1 = _failures s /\
  (format_is_meta cfg = false -> _in_burst s1 = _in_burst s).
Proof.
  unfold work_status, work_transmit. intros H.
  destruct (work_convert cfg volk_convert b s) as [s0|] eqn:Hc; [|discriminate].
  apply work_convert_frame in Hc. destruct Hc as (Hr & Hf & Hb & _).
  destruct (format_is_meta cfg).
  - pose proof (transmit_with_tags_frame hw (nitems_read b) (noutput_items b)
                  (tags b) s0) as (Hr' & Hf' & _).
    destruct (transmit_with_tags hw (nitems_read b) (tags b)
                (noutput_items b) s0) as [[st'|] s'];
      [|discriminate].
    injection H as <- <-. simpl in *. repeat split; congruence.
  - unfold bladerf_sync_tx, hw_issue in H. injection H as <- <-.
    simpl. repeat split; congruence.
Qed.

Lemma work_running b s :
  _running s = true ->
  work hw cfg volk_convert MAX_CONSECUTIVE_FAILURES b s =
  match work_status hw cfg volk_convert b s with
  | Some (st, s1) =>
      Some (work_handle MAX_CONSECUTIVE_FAILURES (noutput_items b) st s1)
  | None => None
  end.
Proof. intros Hr. unfold work. now rewrite Hr. Qed.

(** One call: the counter and the returned value after the status [st]. *)
Lemma work_handle_spec n st s :
  let r := work_handle MAX_CONSECUTIVE_FAILURES n st s in
  _running (snd r) = _running s /\
  _in_burst (snd r) = _in_burst s /\
  _failures (snd r) = (if st =? 0 then 0 else _failures s + 1) /\
  fst r = (if negb (st =? 0) && (MAX_CONSECUTIVE_FAILURES <=? _failures s + 1)
           then WORK_DONE else n).
Proof.
  unfold work_handle. destruct (st =? 0); simpl; [tauto|].
  rewrite Z.geb_leb.
  destruct (MAX_CONSECUTIVE_FAILURES <=? _failures s + 1); simpl; tauto.
Qed.

(** The dropped batch seen from [work]: the branch at line 271 reads the
    unassigned status, so the call has no defined result. *)
Lemma work_dropped_batch b s s1 :
  _running s = true ->
  format_is_meta cfg = true ->
  tags b = [] ->
  _in_burst s = false ->
  work_convert cfg volk_convert b s = Some s1 ->
  work hw cfg volk_convert MAX_CONSECUTIVE_FAILURES b s = None.
Proof.
  intros Hr Hfmt Htags Hb Hc. rewrite work_running by exact Hr.
  unfold work_status, work_transmit. rewrite Hc, Hfmt, Htags.
  apply work_convert_frame in Hc. destruct Hc as (_ & _ & Hb1 & _).
  rewrite transmit_with_tags_drop by congruence. reflexivity.
Qed.

Lemma length_as_floats (buf : list (option (gr_complex float))) :
  length (as_floats buf) = (2 * length buf)%nat.
Proof.
  induction buf as [|c buf IH]; [reflexivity|].
  unfold as_floats in *. cbn [flat_map]. rewrite length_app, IH.
  destruct c as [[re im]|]; simpl; lia.
Qed.

(** With one stream and no metadata every call on a started sink has a
    defined result as long as the batch fits the buffers: the status is
    that of the one transfer it issues. *)
Lemma work_plain_defined b s out32 out16 ch :
  format_is_meta cfg = false ->
  nstreams cfg = 1%nat ->
  _32fcbuf s = Some out32 -> _16icbuf s = Some out16 ->
  input_items b !! 0%nat = Some ch ->
  0 <= noutput_items b ->
  2 * noutput_items b <= INT_MAX ->
  (Z.to_nat (noutput_items b) <= length ch)%nat ->
  (Z.to_nat (noutput_items b) <= length out32)%nat ->
  (2 * Z.to_nat (noutput_items b) <= length out16)%nat ->
  exists s1,
    work_status hw cfg volk_convert b s = Some (hw (length (calls s)), s1) /\
    length <$> _32fcbuf s1 = Some (length out32) /\
    length <$> _16icbuf s1 = Some (length out16).
Proof.
  intros Hfmt Hn H32 H16 Hin H0 Hmax Hch Hb32 Hb16.
  unfold INT_MAX in Hmax.
  unfold work_status, work_transmit, work_convert, copy_input.
  rewrite H32, H16, Hn, Hfmt, Hin. cbn [Nat.ltb Nat.leb].
  unfold size_t_of_int, wrap_uint64, sizeof_gr_complex.
  rewrite (Z.mod_small (noutput_items b)) by lia.
  rewrite Z.mod_small by lia.
  rewrite Z.div_mul by lia.
  replace (Z.to_nat (noutput_items b) <=? length ch)%nat with true
    by (symmetry; now apply Nat.leb_le).
  replace (Z.to_nat (noutput_items b) <=? length out32)%nat with true
    by (symmetry; now apply Nat.leb_le).
  cbn [andb]. unfold volk_32f_s32f_convert_16i.
  rewrite (wrap_int_id (2 * noutput_items b)) by (unfold INT_MAX; lia).
  unfold wrap_uint32. rewrite Z.mod_small by lia.
  set (n := Z.to_nat (noutput_items b)) in *.
  replace (Z.to_nat (2 * noutput_items b)) with (2 * n)%nat by lia.
  assert (Hlen : length ((Some <$> take n ch) ++ drop n out32) = length out32).
  { rewrite length_app, length_fmap, length_take_le, length_drop by lia. lia. }
  rewrite length_as_floats, Hlen.
  replace (2 * n <=? 2 * length out32)%nat with true
    by (symmetry; apply Nat.leb_le; lia).
  replace (2 * n <=? length out16)%nat with true
    by (symmetry; now apply Nat.leb_le).
  cbn [andb]. unfold bladerf_sync_tx, hw_issue. cbn [calls set_bufs].
  eexists. split; [reflexivity|].
  cbn [_32fcbuf _16icbuf log_call set_bufs fmap option_fmap option_map].
  split; [now rewrite Hlen|].
  f_equal. rewrite length_app, length_fmap, length_take_le, length_drop.
  - lia.
  - rewrite length_as_floats, Hlen. lia.
Qed.

(** C7, as amended. [start] always leaves [_in_burst] false; [stop]
    leaves it as it was; so does [work] whenever it does not enter
    [transmit_with_tags] (sink not running, or a format without
    metadata). *)
Theorem in_burst_writers b s :
  _in_burst (snd (start hw cfg s)) = false /\
  _in_burst (snd (stop hw cfg s)) = _in_burst s /\
  (forall r s',
     _running s = false \/ format_is_meta cfg = false ->
     work hw cfg volk_convert MAX_CONSECUTIVE_FAILURES b s = Some (r, s') ->
     _in_burst s' = _in_burst s).
Proof.
  split; [apply start_in_burst|]. split; [apply stop_in_burst|].
  intros r s' Hcase Hw. unfold work in Hw.
  destruct (_running s) eqn:Hr; simpl in Hw.
  - destruct Hcase as [Hcase|Hfmt]; [discriminate|].
    destruct (work_status hw cfg volk_convert b s) as [[st s1]|] eqn:Hs;
      [|discriminate].
    apply work_status_frame in Hs. destruct Hs as (_ & _ & Hb).
    injection Hw as Hw. 
    pose proof (work_handle_spec (noutput_items b) st s1) as (_ & Hb' & _).
    rewrite Hw in Hb'. simpl in Hb'. rewrite Hb'. now apply Hb.
  - now injection Hw as _ <-.
Qed.

(** The counter along a run, for any history [h] that accounts for its
    value at the start. *)
Lemma work_run_counter bs : forall s h tr s',
  _running s = true ->
  _failures s = consecutive_failures h ->
  work_run hw cfg volk_convert MAX_CONSECUTIVE_FAILURES bs s = Some (tr, s') ->
  _running s' = true /\
  length tr = length bs /\
  _failures s' = consecutive_failures (rev (map fst tr) ++ h) /\
  forall (i : nat) b st r,
    bs !! i = Some b -> tr !! i = Some (st, r) ->
    r = if negb (st =? 0) &&
           (MAX_CONSECUTIVE_FAILURES <=?
              consecutive_failures (rev (take (S i) (map fst tr)) ++ h))
        then WORK_DONE else noutput_items b.
Proof.
  induction bs as [|b bs IH]; intros s h tr s' Hr Hf Hrun.
  - injection Hrun as <- <-. simpl. repeat split; auto.
    intros i b st r Hb. discriminate.
  - cbn [work_run] in Hrun. rewrite work_running in Hrun by exact Hr.
    destruct (work_status hw cfg volk_convert b s) as [[st s1]|] eqn:Hs;
      [|discriminate].
    apply work_status_frame in Hs. destruct Hs as (Hr1 & Hf1 & _).
    pose proof (work_handle_spec (noutput_items b) st s1) as (Hr2 & _ & Hf2 & Hret).
    destruct (work_handle MAX_CONSECUTIVE_FAILURES (noutput_items b) st s1)
      as [r0 s2]. cbn [fst snd] in *.
    destruct (work_run hw cfg volk_convert MAX_CONSECUTIVE_FAILURES bs s2)
      as [[tr' s'']|] eqn:Hrest; [|discriminate].
    injection Hrun as <- <-.
    assert (Hcf : _failures s2 = consecutive_failures (st :: h)).
    { rewrite Hf2. cbn [consecutive_failures].
      destruct (st =? 0); [reflexivity|]. rewrite Hf1, Hf. lia. }
    destruct (IH s2 (st :: h) tr' s'' ltac:(congruence) Hcf Hrest)
      as (Hr' & Hlen & Hf' & Hall).
    split; [exact Hr'|]. split; [simpl; now rewrite Hlen|].
    split.
    + cbn [map fst rev]. now rewrite <- app_assoc.
    + intros [|i] b' st' r Hb Ht.
      * injection Hb as <-. injection Ht as <- <-.
        change (rev (take 1 (map fst ((st, r0) :: tr'))) ++ h) with (st :: h).
        rewrite Hret. cbn [consecutive_failures].
        destruct (st =? 0); [reflexivity|]. cbn [negb andb].
        rewrite Hf1, Hf. now rewrite Z.add_comm.
      * cbn [map fst take rev]. rewrite <- app_assoc. cbn [app].
        eapply Hall; eassumption.
Qed.

(** C2, as amended. Along a run of [work] calls on a running sink whose
    counter starts at zero: the counter is the number of failing calls in
    a row up to now (a success puts it back to zero), and the [i]-th call
    returns [WORK_DONE] exactly when it fails and is at least the
    [MAX_CONSECUTIVE_FAILURES]-th failing call in a row; every other call
    returns the item count it was given. *)
Theorem work_failure_policy (bs : list (batch float)) s tr s' (i : nat) b st r :
  _running s = true ->
  _failures s = 0 ->
  work_run hw cfg volk_convert MAX_CONSECUTIVE_FAILURES bs s = Some (tr, s') ->
  bs !! i = Some b ->
  tr !! i = Some (st, r) ->
  _failures s' = consecutive_failures (rev (map fst tr)) /\
  r = if negb (st =? 0) &&
         (MAX_CONSECUTIVE_FAILURES <=?
            consecutive_failures (rev (take (S i) (map fst tr))))
      then WORK_DONE else noutput_items b.
Proof.
  intros Hr Hf Hrun Hb Ht.
  destruct (work_run_counter bs s [] tr s' Hr Hf Hrun) as (_ & _ & Hf' & Hall).
  rewrite app_nil_r in Hf'. split; [exact Hf'|].
  specialize (Hall i b st r Hb Ht). now rewrite app_nil_r in Hall.
Qed.

End Work.

(** ** Interleaving of two input streams *)

Section Interleave.

Context {float : Type}.

Implicit Types (ch : list (gr_complex float))
  (buf done rest : list (option (gr_complex float))).

Lemma round_robin2_lookup {A : Type} (a : list A) : forall (b : list A) (i : nat),
  (i < length a)%nat -> (i < length b)%nat ->
  round_robin2 a b !! (2 * i)%nat = a !! i /\
  round_robin2 a b !! (2 * i + 1)%nat = b !! i.
Proof.
  induction a as [|x a IH]; intros [|y b] i Ha Hb;
    cbn [length] in Ha, Hb; try lia.
  destruct i as [|i]; [split; reflexivity|].
  replace (2 * S i + 1)%nat with (S (S (2 * i + 1))) by lia.
  replace (2 * S i)%nat with (S (S (2 * i))) by lia.
  cbn [round_robin2 lookup list_lookup]. apply IH; lia.
Qed.

Lemma insert_at_end {A : Type} (l : list A) (a v : A) (tl : list A) :
  <[length l := v]> (l ++ a :: tl) = l ++ v :: tl.
Proof. induction l as [|b l IH]; simpl; [reflexivity|]. now rewrite IH. Qed.

Lemma copy_one_step (input : list (list (gr_complex float))) (n p : nat)
    ch x done r rest (pos : list nat) :
  pos !! n = Some p ->
  input !! n = Some ch ->
  ch !! p = Some x ->
  copy_one input n
    {| intl_buf := done ++ r :: rest; intl_out := length done;
       in_pos := pos |} =
  Some {| intl_buf := (done ++ [Some x]) ++ rest;
          intl_out := length (done ++ [Some x]);
          in_pos := <[n := S p]> pos |}.
Proof.
  intros Hp Hin Hx. unfold copy_one. cbn [in_pos intl_out intl_buf].
  rewrite Hp, Hin, Hx.
  replace (length done <? length (done ++ r :: rest))%nat with true
    by (symmetry; apply Nat.ltb_lt; rewrite length_app; simpl; lia).
  rewrite insert_at_end, <- app_assoc, length_app. simpl.
  now rewrite Nat.add_1_r.
Qed.

Lemma copy_frames_two ch0 ch1 (m : nat) : forall (p : nat) done rest,
  (p + m <= length ch0)%nat ->
  (p + m <= length ch1)%nat ->
  (2 * m <= length rest)%nat ->
  copy_frames [ch0; ch1] 2 m
    {| intl_buf := done ++ rest; intl_out := length done;
       in_pos := [p; p] |} =
  Some {| intl_buf := done
                      ++ (Some <$> round_robin2 (take m (drop p ch0))
                                                (take m (drop p ch1)))
                      ++ drop (2 * m) rest;
          intl_out := (length done + 2 * m)%nat;
          in_pos := [(p + m)%nat; (p + m)%nat] |}.
Proof.
  induction m as [|m IH]; intros p done rest H0 H1 Hrest.
  - simpl. now rewrite !Nat.add_0_r.
  - destruct (lookup_lt_is_Some_2 ch0 p ltac:(lia)) as [x Hx].
    destruct (lookup_lt_is_Some_2 ch1 p ltac:(lia)) as [y Hy].
    destruct rest as [|r0 [|r1 rest]]; simpl in Hrest; try lia.
    cbn [copy_frames seq copy_frame].
    rewrite (copy_one_step _ 0 p ch0 x) by (assumption || reflexivity).
    rewrite (copy_one_step _ 1 p ch1 y) by (assumption || reflexivity).
    cbn [insert list_insert].
    rewrite (IH (S p)) by lia.
    rewrite (drop_S ch0 x p Hx), (drop_S ch1 y p Hy).
    replace (2 * S m)%nat with (S (S (2 * m))) by lia.
    cbn [take round_robin2 fmap list_fmap drop].
    f_equal. f_equal.
    + rewrite <- !app_assoc. reflexivity.
    + rewrite !length_app. simpl. lia.
    + f_equal; [lia|f_equal; lia].
Qed.

(** C8. With two input streams the buffer handed to the converter
    starts with [ch0[0], ch1[0], ch0[1], ch1[1], ...]: one sample of each
    stream per time step, for the [M = noutput_items / 2] time steps the
    loop runs; the cell [2 i] holds [ch0[i]] and the cell [2 i + 1] holds
    [ch1[i]]. *)
Theorem copy_input_two_streams (N : Z) (M : nat) ch0 ch1 buf :
  0 <= N < 2 ^ 64 ->
  M = Z.to_nat (N / 2) ->
  (M <= length ch0)%nat ->
  (M <= length ch1)%nat ->
  (2 * M <= length buf)%nat ->
  exists buf',
    copy_input 2 N [ch0; ch1] buf = Some buf' /\
    buf' = (Some <$> round_robin2 (take M ch0) (take M ch1))
           ++ drop (2 * M) buf /\
    forall i : nat, (i < M)%nat ->
      buf' !! (2 * i)%nat = Some (ch0 !! i) /\
      buf' !! (2 * i + 1)%nat = Some (ch1 !! i).
Proof.
  intros HN HM H0 H1 Hbuf.
  eexists. split; [|split; [reflexivity|]].
  - unfold copy_input. cbn [Nat.ltb Nat.leb length].
    unfold size_t_of_int. rewrite Z.mod_small by lia.
    change (Z.of_nat 2) with 2. rewrite <- HM.
    pose proof (copy_frames_two ch0 ch1 M 0 [] buf) as Hc.
    cbn [app length drop] in Hc. cbn [replicate]. rewrite Hc by lia.
    cbn [intl_buf]. reflexivity.
  - intros i Hi.
    destruct (round_robin2_lookup (take M ch0) (take M ch1) i) as [E0 E1];
      [rewrite length_take_le; lia | rewrite length_take_le; lia |].
    rewrite !lookup_take_lt in E0, E1 by lia.
    destruct (lookup_lt_is_Some_2 ch0 i ltac:(lia)) as [x Hx].
    destruct (lookup_lt_is_Some_2 ch1 i ltac:(lia)) as [y Hy].
    rewrite Hx in *. rewrite Hy in *.
    split; apply lookup_app_l_Some; rewrite list_lookup_fmap.
    + now rewrite E0.
    + now rewrite E1.
Qed.

End Interleave.

(** * The properties at sample instances *)

Import Sample.

Lemma transmit_with_tags_idle_no_tags_witness :
  _in_burst idle = false /\
  transmit_with_tags hw_ok 1000 [] 4 idle = (None, idle) /\
  fst (transmit_with_tags hw_ok 1000 [] 4 idle) <> Some 0.
Proof.
  split; [reflexivity|].
  exact (transmit_with_tags_idle_no_tags hw_ok 1000 4 idle eq_refl).
Defined.

Lemma transmit_with_tags_in_burst_no_tags_witness :
  _in_burst mid_burst = true /\
  transmit_with_tags (hw_fail_first 1) 1000 [] 4 mid_burst =
  (Some (-1),
   log_call (SyncTx {| tx_buf := Samples 0; tx_count := 4;
                       tx_meta := Some meta_zero |}) mid_burst).
Proof.
  split; [reflexivity|].
  exact (transmit_with_tags_in_burst_no_tags (hw_fail_first 1) 1000 4
           mid_burst eq_refl).
Defined.

Lemma transmit_with_tags_sob_eob_witness :
  _in_burst idle = false /\
  rel_offset 1000 (sob 1005) = 5 /\
  rel_offset 1000 (eob 1020) = 20 /\
  fst (transmit_with_tags hw_ok 1000 [sob 1005; eob 1020] 32 idle) = Some 0 /\
  calls (snd (transmit_with_tags hw_ok 1000 [sob 1005; eob 1020] 32 idle)) =
    [SyncTx {| tx_buf := Samples 10; tx_count := 16;
               tx_meta := Some {| timestamp := 0; flags := 5 |} |};
     SyncTx {| tx_buf := Zeros; tx_count := 4;
               tx_meta := Some {| timestamp := 0; flags := 2 |} |}] /\
  _in_burst (snd (transmit_with_tags hw_ok 1000 [sob 1005; eob 1020] 32 idle))
    = false.
Proof.
  split; [reflexivity|]. split; [reflexivity|]. split; [reflexivity|].
  destruct (transmit_with_tags_sob_eob hw_ok 1000 (sob 1005) (eob 1020) idle
              eq_refl eq_refl eq_refl eq_refl eq_refl eq_refl eq_refl)
    as (Hret & Hcalls & _ & _ & _ & Hburst).
  split; [exact Hret|]. split; [exact Hcalls|exact Hburst].
Defined.

Lemma transmit_with_tags_open_burst_witness :
  _in_burst idle = false /\
  rel_offset 1000 (sob 1010) = 10 /\
  transmit_with_tags (hw_fail_first 1) 1000
    ([rx_time 1003] ++ sob 1010 :: [rx_time 1020]) 32 idle =
  (Some (-1),
   log_call (SyncTx {| tx_buf := Samples 20; tx_count := 22;
                       tx_meta := Some {| timestamp := 0; flags := 5 |} |})
     (set_in_burst true idle)).
Proof.
  split; [reflexivity|]. split; [reflexivity|].
  assert (U : forall off, unrecognized (rx_time off))
    by (intros off; split; discriminate).
  refine (proj1 (transmit_with_tags_open_burst (hw_fail_first 1) 1000 32 10
                   [rx_time 1003] [rx_time 1020] (sob 1010) idle
                   eq_refl _ _ _ eq_refl eq_refl _)).
  - split; [discriminate|reflexivity].
  - discriminate.
  - constructor; [apply U|constructor].
  - constructor; [apply U|constructor].
Defined.

Lemma transmit_with_tags_protocol_error_witness :
  tag_loop hw_ok 1000 32 [sob 1005] (init_locals 32) idle =
    Continue locals_after_sob mid_burst /\
  protocol_error 1000 (sob 1008) locals_after_sob mid_burst /\
  transmit_with_tags hw_ok 1000 ([sob 1005] ++ sob 1008 :: [eob 1020]) 32 idle =
    (Some BLADERF_ERR_INVAL, mid_burst).
Proof.
  assert (P : protocol_error 1000 (sob 1008) locals_after_sob mid_burst)
    by (left; split; reflexivity).
  split; [reflexivity|]. split; [exact P|].
  exact (proj1 (transmit_with_tags_protocol_error hw_ok 1000 32 [sob 1005]
                  [eob 1020] (sob 1008) locals_after_sob idle mid_burst
                  eq_refl P)).
Defined.

Lemma transmit_with_tags_eob_failure_witness :
  tag_loop (hw_fail_first 1) 1000 32 [sob 1005] (init_locals 32) idle =
    Continue locals_after_sob mid_burst /\
  hw_fail_first 1 (length (calls mid_burst)) <> 0 /\
  exists l' s',
    transmit_with_tags_flow (hw_fail_first 1) 1000
      ([sob 1005] ++ eob 1020 :: []) 32 idle = Return (Some (-1)) l' s' /\
    _in_burst s' = true /\
    start_idx l' = 5 /\
    end_idx l' = 20 /\
    flags (meta l') = flags_burst_start /\
    calls s' = [SyncTx {| tx_buf := Samples 10; tx_count := 16;
                          tx_meta := Some {| timestamp := 0;
                                             flags := flags_burst_start |} |}].
Proof.
  split; [reflexivity|]. split; [discriminate|].
  destruct (transmit_with_tags_eob_failure (hw_fail_first 1) 1000 32
              [sob 1005] [] (eob 1020) locals_after_sob idle mid_burst
              eq_refl eq_refl eq_refl)
    as (l' & s' & Hflow & _ & Hb & Hstart & Hend & Hflags & Hcalls).
  - discriminate.
  - discriminate.
  - left. discriminate.
  - exists l', s'. split; [exact Hflow|]. split; [exact Hb|].
    split; [exact Hstart|]. split; [exact Hend|]. split; [exact Hflags|].
    exact Hcalls.
Defined.

Lemma stop_idempotent_witness :
  (forall i, (i < max_channels cfg_plain)%nat ->
             hw_ok (length (calls idle) + i)%nat = 0) /\
  fst (stop hw_ok cfg_plain idle) = Returned true /\
  stop hw_ok cfg_plain (snd (stop hw_ok cfg_plain idle)) =
    (Returned true, snd (stop hw_ok cfg_plain idle)) /\
  (_running fresh = false -> stop hw_ok cfg_plain fresh = (Returned true, fresh)).
Proof.
  assert (Hok : forall i, (i < max_channels cfg_plain)%nat ->
                          hw_ok (length (calls idle) + i)%nat = 0)
    by (intros i _; reflexivity).
  split; [exact Hok|].
  destruct (stop_idempotent hw_ok cfg_plain idle) as (_ & Hsecond & Hfirst).
  split; [exact (Hfirst Hok)|]. split; [exact Hsecond|].
  exact (proj1 (stop_idempotent hw_ok cfg_plain fresh)).
Defined.

(** C9, as stated, fails: a running sink whose channel call is refused
    by the device throws from the first [stop]. *)
Lemma stop_first_call_throws :
  ~ (forall (hw : nat -> Z) (cfg : config) (s : sink Z),
       fst (stop hw cfg s) = Returned true /\
       fst (stop hw cfg (snd (stop hw cfg s))) = Returned true).
Proof.
  intros H. destruct (H (hw_fail_first 1) cfg_plain idle) as [H1 _].
  discriminate H1.
Qed.

Lemma in_burst_writers_witness :
  format_is_meta cfg_plain = false /\
  _in_burst (snd (start hw_ok cfg_plain mid_burst)) = false /\
  _in_burst (snd (stop hw_ok cfg_plain mid_burst)) = true /\
  match work hw_ok cfg_plain convert 3 two_samples mid_burst with
  | Some (r, s') => r = 2 /\ _in_burst s' = true
  | None => False
  end.
Proof.
  destruct (in_burst_writers hw_ok cfg_plain convert 3 two_samples mid_burst)
    as (Hstart & Hstop & Hwork).
  split; [reflexivity|]. split; [exact Hstart|]. split; [exact Hstop|].
  destruct (work hw_ok cfg_plain convert 3 two_samples mid_burst)
    as [[r s']|] eqn:E; [|discriminate E].
  split; [now injection E as <- _|].
  exact (Hwork r s' (or_intror eq_refl) eq_refl).
Defined.

(** C7, as stated, fails: [start] on a sink that is inside a burst puts
    [_in_burst] back to false. *)
Lemma start_resets_in_burst :
  ~ (forall (hw : nat -> Z) (cfg : config) (s : sink Z),
       _in_burst (snd (start hw cfg s)) = _in_burst s /\
       _in_burst (snd (stop hw cfg s)) = _in_burst s).
Proof.
  intros H. destruct (H hw_ok cfg_plain mid_burst) as [H1 _].
  discriminate H1.
Qed.

Lemma work_failure_policy_witness :
  _running idle = true /\
  _failures idle = 0 /\
  work_run (hw_fail_first 3) cfg_plain convert 3
    [two_samples; two_samples; two_samples; two_samples] idle =
    Some (four_calls, after_four_calls) /\
  four_calls !! 2%nat = Some (-1, WORK_DONE) /\
  _failures after_four_calls = consecutive_failures (rev (map fst four_calls)) /\
  WORK_DONE =
    (if negb (-1 =? 0) &&
        (3 <=? consecutive_failures (rev (take 3 (map fst four_calls))))
     then WORK_DONE else noutput_items two_samples).
Proof.
  split; [reflexivity|]. split; [reflexivity|]. split; [reflexivity|].
  split; [reflexivity|].
  exact (work_failure_policy (hw_fail_first 3) cfg_plain convert 3
           [two_samples; two_samples; two_samples; two_samples]
           idle four_calls after_four_calls 2 two_samples (-1) WORK_DONE
           eq_refl eq_refl eq_refl eq_refl eq_refl).
Defined.

(** C2, as stated, fails twice over on three failing calls followed by a
    successful one, with a threshold of three: the call after the
    threshold-many failures does not signal termination (it succeeds and
    returns its item count), and termination was signalled before it, by
    the third failing call itself. *)
Lemma work_next_call_after_threshold :
  ~ (forall (hw : nat -> Z) (cfg : config) (conv : Z -> Z) (MAX : Z)
            (bs : list (batch Z)) (b : batch Z) (s s' s'' : sink Z)
            (tr : list (Z * Z)) (r : Z),
       _running s = true -> _failures s = 0 ->
       Z.of_nat (length bs) = MAX ->
       work_run hw cfg conv MAX bs s = Some (tr, s') ->
       Forall (fun p => fst p <> 0) tr ->
       work hw cfg conv MAX b s' = Some (r, s'') ->
       r = WORK_DONE) /\
  ~ (forall (hw : nat -> Z) (cfg : config) (conv : Z -> Z) (MAX : Z)
            (bs : list (batch Z)) (s s' : sink Z) (tr : list (Z * Z)),
       _running s = true -> _failures s = 0 ->
       Z.of_nat (length bs) = MAX ->
       work_run hw cfg conv MAX bs s = Some (tr, s') ->
       Forall (fun p => fst p <> 0) tr ->
       Forall (fun p => snd p <> WORK_DONE) tr).
Proof.
  set (three := [two_samples; two_samples; two_samples]).
  set (tr3 := [(-1, 2); (-1, 2); (-1, WORK_DONE)]).
  set (s3 := set_failures 3
               (set_bufs (_16icbuf after_four_calls) (_32fcbuf after_four_calls)
                  (log_call plain_tx (log_call plain_tx
                     (log_call plain_tx idle))))).
  assert (Hrun : work_run (hw_fail_first 3) cfg_plain convert 3 three idle =
                 Some (tr3, s3)) by reflexivity.
  assert (Hfail : Forall (fun p : Z * Z => fst p <> 0) tr3)
    by (repeat constructor; discriminate).
  split; intros H.
  - specialize (H (hw_fail_first 3) cfg_plain convert 3 three two_samples
                  idle s3 (set_failures 0
                             (log_call plain_tx s3)) tr3 2
                  eq_refl eq_refl eq_refl Hrun Hfail eq_refl).
    discriminate H.
  - specialize (H (hw_fail_first 3) cfg_plain convert 3 three idle s3 tr3
                  eq_refl eq_refl eq_refl Hrun Hfail).
    apply Forall_inv_tail, Forall_inv_tail, Forall_inv in H.
    now apply H.
Qed.

Lemma copy_input_two_streams_witness :
  Z.to_nat (4 / 2) = 2%nat /\
  copy_input 2 4 [[(1, 1); (2, 2)]; [(5, 5); (6, 6)]] (replicate 4 None) =
    Some [Some (1, 1); Some (5, 5); Some (2, 2); Some (6, 6)].
Proof.
  split; [reflexivity|].
  destruct (copy_input_two_streams 4 2 [(1, 1); (2, 2)] [(5, 5); (6, 6)]
              (replicate 4 None))
    as (buf' & Hcopy & Hbuf & _).
  - split; [discriminate|reflexivity].
  - reflexivity.
  - apply le_n.
  - apply le_n.
  - apply le_n.
  - rewrite Hbuf in Hcopy. exact Hcopy.
Defined.

(** * Further properties of the burst machine *)

Lemma wrap_int_mod64 (z : Z) : wrap_int (wrap_uint64 z) = wrap_int z.
Proof.
  unfold wrap_int, wrap_uint64. f_equal.
  rewrite (Zplus_mod (z mod 2 ^ 64)), (Zplus_mod z).
  rewrite Z.mod_mod_divide by (exists (2 ^ 32); reflexivity).
  reflexivity.
Qed.

(** X1. The index of a tag relative to the batch is the plain difference
    of its offset and [nitems_read(0)] wherever the batch lies in the
    stream, as long as that difference fits an [int]; the unsigned
    subtraction and the cast lose nothing. *)
Theorem rel_offset_difference (nitems_read : Z) (t : tag_t) :
  - 2 ^ 31 <= offset t - nitems_read <= INT_MAX ->
  rel_offset nitems_read t = offset t - nitems_read.
Proof.
  intros H. unfold rel_offset. rewrite wrap_int_mod64.
  now apply wrap_int_id.
Qed.

Section BurstMore.

Context {float : Type}.
Variable hw : nat -> Z.

Implicit Types (s : sink float) (l : locals) (t : tag_t).

Lemma tag_loop_skip nitems_read N (pre rest : list tag_t) l s :
  Forall unrecognized pre ->
  tag_loop hw nitems_read N (pre ++ rest) l s =
  tag_loop hw nitems_read N rest l s.
Proof.
  intros Hpre. rewrite tag_loop_app, tag_loop_unrecognized by assumption.
  reflexivity.
Qed.

Lemma after_loop_closed l s :
  _in_burst s = false -> after_loop hw l s = Return (status l) l s.
Proof. intros Hb. unfold after_loop. now rewrite Hb. Qed.

Lemma flush_flags (f : Z) :
  f = 0 \/ f = flags_burst_start ->
  Z.lor (Z.land f (Z.lnot flags_burst_start)) BLADERF_META_FLAG_TX_BURST_END =
  BLADERF_META_FLAG_TX_BURST_END.
Proof. intros [-> | ->]; reflexivity. Qed.

(** One burst-end tag met inside a burst, both transfers succeeding:
    the loop goes on outside a burst with the locals reset. *)
Lemma tag_body_eob_ok nitems_read N t l s (e : Z) :
  key t = "tx_eob"%string ->
  rel_offset nitems_read t = e ->
  _in_burst s = true ->
  0 <= start_idx l <= e ->
  2 * e < INT_MAX ->
  timestamp (meta l) = 0 ->
  flags (meta l) = 0 \/ flags (meta l) = flags_burst_start ->
  hw (length (calls s)) = 0 ->
  hw (S (length (calls s))) = 0 ->
  tag_body hw nitems_read N t l s =
  Continue {| status := Some 0; count := e - start_idx l + 1;
              start_idx := INVALID_IDX; end_idx := wrap_int (N - 1);
              meta := meta_zero |}
    (set_in_burst false
       (log_calls [tx_range (start_idx l) e (flags (meta l)); tx_flush] s)).
Proof.
  intros Hk He Hb Hidx Hmax Hts Hfl Hw1 Hw2. unfold INT_MAX in Hmax.
  rewrite tag_body_eob; [|assumption|assumption| |].
  - cbv zeta. rewrite He, Hw1, Hw2. cbn [Z.eqb negb].
    rewrite (wrap_int_id (e - start_idx l)) by (unfold INT_MAX; lia).
    rewrite (wrap_int_id (e - start_idx l + 1)) by (unfold INT_MAX; lia).
    rewrite (wrap_int_id (2 * start_idx l)) by (unfold INT_MAX; lia).
    rewrite flush_flags by exact Hfl.
    unfold tx_range, tx_flush, log_calls, set_flags, meta_zero. cbn [fold_left].
    rewrite Hts. destruct (meta l) as [ts fl]. cbn in Hts |- *. subst ts.
    reflexivity.
  - unfold INVALID_IDX. lia.
  - rewrite He. lia.
Qed.

(** X2. A batch entered outside a burst whose burst markers are one
    burst-start at relative offset [k] and a later burst-end at [e], among
    any unrecognised tags, the transfers succeeding: exactly the samples
    [k..e] are sent, flagged start-now and burst-start, then the flush
    with burst-end; the samples before [k] and after [e] are not sent, the
    status is zero and the sink is outside a burst. *)
Theorem transmit_with_tags_whole_burst
    (nitems_read N k e : Z) (pre mid post : list tag_t) t1 t2 s :
  _in_burst s = false ->
  Forall unrecognized pre -> Forall unrecognized mid ->
  Forall unrecognized post ->
  key t1 = "tx_sob"%string -> rel_offset nitems_read t1 = k ->
  key t2 = "tx_eob"%string -> rel_offset nitems_read t2 = e ->
  0 <= k <= e -> 2 * e < INT_MAX ->
  hw (length (calls s)) = 0 -> hw (S (length (calls s))) = 0 ->
  transmit_with_tags hw nitems_read (pre ++ t1 :: mid ++ t2 :: post) N s =
  (Some 0,
   set_in_burst false
     (log_calls [tx_range k e flags_burst_start; tx_flush] s)).
Proof.
  intros Hb Hpre Hmid Hpost Hk1 Hr1 Hk2 Hr2 Hidx Hmax Hw1 Hw2.
  unfold transmit_with_tags, transmit_with_tags_flow.
  rewrite no_tags_check_nonempty. cbn [flow_bind].
  rewrite tag_loop_skip by assumption. cbn [tag_loop].
  rewrite tag_body_sob by assumption.
  rewrite tag_loop_skip by assumption. cbn [tag_loop].
  rewrite (tag_body_eob_ok _ _ t2 _ _ e); try assumption; try reflexivity.
  - rewrite tag_loop_unrecognized by assumption. cbn [flow_bind].
    rewrite after_loop_closed by reflexivity.
    cbn [status set_meta_flags set_start_idx start_idx meta flags set_flags
           init_locals meta_zero]. rewrite Hr1. reflexivity.
  - cbn [set_meta_flags set_start_idx start_idx]. rewrite Hr1. exact Hidx.
  - right. reflexivity.
Qed.

(** X3. A batch entered inside a burst whose only burst marker is a
    burst-end at relative offset [e], the transfers succeeding: the
    samples [0..e] are sent with zeroed metadata, then the flush with
    burst-end; what follows [e] is not sent, the status is zero and the
    sink is outside a burst. *)
Theorem transmit_with_tags_close_burst
    (nitems_read N e : Z) (pre post : list tag_t) t s :
  _in_burst s = true ->
  Forall unrecognized pre -> Forall unrecognized post ->
  key t = "tx_eob"%string -> rel_offset nitems_read t = e ->
  0 <= e -> 2 * e < INT_MAX ->
  hw (length (calls s)) = 0 -> hw (S (length (calls s))) = 0 ->
  transmit_with_tags hw nitems_read (pre ++ t :: post) N s =
  (Some 0, set_in_burst false (log_calls [tx_range 0 e 0; tx_flush] s)).
Proof.
  intros Hb Hpre Hpost Hk Hr He Hmax Hw1 Hw2.
  unfold transmit_with_tags, transmit_with_tags_flow.
  rewrite no_tags_check_nonempty. cbn [flow_bind].
  rewrite tag_loop_skip by assumption. cbn [tag_loop].
  rewrite (tag_body_eob_ok _ _ t _ _ e); try assumption; try reflexivity.
  - rewrite tag_loop_unrecognized by assumption. cbn [flow_bind].
    rewrite after_loop_closed by reflexivity. reflexivity.
  - cbn [init_locals start_idx]. lia.
  - left. reflexivity.
Qed.

(** X4. A batch entered inside a burst that ends it at relative offset
    [e] and starts the next one at [k]: three transfers, the samples
    [0..e] with zeroed metadata, the flush with burst-end, and the samples
    [k..N-1] flagged start-now and burst-start; the status of the third is
    returned and the sink is inside a burst. *)
Theorem transmit_with_tags_back_to_back
    (nitems_read N e k : Z) (pre mid post : list tag_t) t1 t2 s :
  _in_burst s = true ->
  Forall unrecognized pre -> Forall unrecognized mid ->
  Forall unrecognized post ->
  key t1 = "tx_eob"%string -> rel_offset nitems_read t1 = e ->
  key t2 = "tx_sob"%string -> rel_offset nitems_read t2 = k ->
  0 <= e -> 0 <= k < N -> 2 * e < INT_MAX -> 2 * N <= INT_MAX ->
  hw (length (calls s)) = 0 -> hw (S (length (calls s))) = 0 ->
  transmit_with_tags hw nitems_read (pre ++ t1 :: mid ++ t2 :: post) N s =
  (Some (hw (S (S (length (calls s))))),
   set_in_burst true
     (log_calls [tx_range 0 e 0; tx_flush;
                 tx_range k (N - 1) flags_burst_start] s)).
Proof.
  intros Hb Hpre Hmid Hpost Hk1 Hr1 Hk2 Hr2 He Hk Hmax HN Hw1 Hw2.
  unfold INT_MAX in HN.
  unfold transmit_with_tags, transmit_with_tags_flow.
  rewrite no_tags_check_nonempty. cbn [flow_bind].
  rewrite tag_loop_skip by assumption. cbn [tag_loop].
  rewrite (tag_body_eob_ok _ _ t1 _ _ e); try assumption; try reflexivity.
  - rewrite tag_loop_skip by assumption. cbn [tag_loop].
    rewrite tag_body_sob by (assumption || reflexivity).
    rewrite tag_loop_unrecognized by assumption. cbn [flow_bind].
    rewrite after_loop_open by reflexivity. cbv zeta.
    cbn [set_meta_flags set_start_idx start_idx end_idx meta flags set_flags
           meta_zero timestamp set_count].
    rewrite Hr2.
    rewrite (wrap_int_id (N - 1)) by (unfold INT_MAX; lia).
    rewrite (wrap_int_id (N - 1 - k)) by (unfold INT_MAX; lia).
    rewrite (wrap_int_id (N - 1 - k + 1)) by (unfold INT_MAX; lia).
    rewrite (wrap_int_id (2 * k)) by (unfold INT_MAX; lia).
    unfold log_calls, tx_range. cbn [fold_left calls set_in_burst log_call].
    rewrite !length_app. cbn [length]. rewrite !Nat.add_1_r.
    reflexivity.
  - cbn [init_locals start_idx]. lia.
  - left. reflexivity.
Qed.

Lemma not_burst_tag_unrecognized t : is_burst_tag t = false -> unrecognized t.
Proof.
  unfold is_burst_tag, unrecognized. intros H.
  apply orb_false_iff in H. destruct H as [H1 H2].
  split; now apply String.eqb_neq.
Qed.

Lemma tag_loop_filter nitems_read N (ts : list tag_t) : forall l s,
  tag_loop hw nitems_read N ts l s =
  tag_loop hw nitems_read N (List.filter is_burst_tag ts) l s.
Proof.
  induction ts as [|t ts IH]; intros l s; [reflexivity|].
  cbn [List.filter]. destruct (is_burst_tag t) eqn:Ht; cbn [tag_loop].
  - destruct (tag_body hw nitems_read N t l s); [apply IH|reflexivity].
  - rewrite tag_body_unrecognized by now apply not_burst_tag_unrecognized.
    apply IH.
Qed.

(** X5. Tags with other keys never influence the call: the returned
    value and the sink are those of the same batch with only its
    burst-start and burst-end tags kept. *)
Theorem transmit_with_tags_ignores_other_tags
    (nitems_read N : Z) (ts : list tag_t) s :
  0 <= N <= INT_MAX ->
  transmit_with_tags hw nitems_read ts N s =
  transmit_with_tags hw nitems_read (List.filter is_burst_tag ts) N s.
Proof.
  intros HN. unfold transmit_with_tags, transmit_with_tags_flow.
  destruct ts as [|t ts]; [reflexivity|].
  rewrite no_tags_check_cons. cbn [flow_bind].
  rewrite tag_loop_filter.
  destruct (List.filter is_burst_tag (t :: ts)) as [|t' ts'] eqn:Hf.
  - cbn [tag_loop flow_bind]. unfold no_tags_check.
    cbn [length Nat.eqb]. destruct (_in_burst s) eqn:Hb; cbn [flow_bind tag_loop].
    + rewrite after_loop_open by exact Hb. cbv zeta.
      unfold bladerf_sync_tx, hw_issue.
      cbn [init_locals start_idx end_idx meta].
      change (2 * 0) with 0. rewrite (wrap_int_id 0) by (unfold INT_MAX; lia).
      rewrite (wrap_int_id (N - 1)) by (unfold INT_MAX in *; lia).
      rewrite (wrap_int_id (N - 1 - 0)) by (unfold INT_MAX in *; lia).
      rewrite (wrap_int_id (N - 1 - 0 + 1)) by (unfold INT_MAX in *; lia).
      replace (N - 1 - 0 + 1) with N by lia. reflexivity.
    + rewrite after_loop_closed by exact Hb. reflexivity.
  - rewrite no_tags_check_cons. reflexivity.
Qed.

Lemma tag_body_continue_burst nitems_read N t l s l' s' :
  tag_body hw nitems_read N t l s = Continue l' s' ->
  _in_burst s' = burst_after (_in_burst s) [t].
Proof.
  unfold tag_body, burst_after, bladerf_sync_tx, hw_issue. cbn [fold_left].
  repeat match goal with
         | |- context [if ?b then _ else _] => destruct b eqn:?
         end; intros H; try discriminate H; injection H as <- <-;
    try reflexivity; cbn [_in_burst set_in_burst log_call] in *; congruence.
Qed.

Lemma tag_body_return_nonzero nitems_read N t l s r l' s' :
  tag_body hw nitems_read N t l s = Return r l' s' -> r <> Some 0.
Proof.
  unfold tag_body, bladerf_sync_tx, hw_issue.
  repeat match goal with
         | |- context [if ?b then _ else _] => destruct b eqn:?
         end; intros H; try discriminate H; injection H as <- <- <-;
    try (unfold BLADERF_ERR_INVAL; discriminate).
  all: intros E; injection E as E.
  all: match goal with
       | Hz : negb (?x =? 0) = true |- _ =>
           apply negb_true_iff, Z.eqb_neq in Hz; exact (Hz E)
       end.
Qed.

Lemma burst_after_cons (b : bool) t (ts : list tag_t) :
  burst_after b (t :: ts) = burst_after (burst_after b [t]) ts.
Proof. reflexivity. Qed.

Lemma tag_loop_continue_burst nitems_read N (ts : list tag_t) : forall l s l' s',
  tag_loop hw nitems_read N ts l s = Continue l' s' ->
  _in_burst s' = burst_after (_in_burst s) ts.
Proof.
  induction ts as [|t ts IH]; intros l s l' s' H.
  - now injection H as <- <-.
  - cbn [tag_loop] in H.
    destruct (tag_body hw nitems_read N t l s) as [l1 s1|r l1 s1] eqn:Hb;
      [|discriminate].
    rewrite burst_after_cons, <- (tag_body_continue_burst _ _ _ _ _ _ _ Hb).
    eapply IH; eassumption.
Qed.

Lemma tag_loop_return_nonzero nitems_read N (ts : list tag_t) : forall l s r l' s',
  tag_loop hw nitems_read N ts l s = Return r l' s' -> r <> Some 0.
Proof.
  induction ts as [|t ts IH]; intros l s r l' s' H; [discriminate|].
  cbn [tag_loop] in H.
  destruct (tag_body hw nitems_read N t l s) as [l1 s1|r1 l1 s1] eqn:Hb.
  - eapply IH; eassumption.
  - injection H as <- <- <-. eapply tag_body_return_nonzero; eassumption.
Qed.

(** X6. After a call that returns the zero status the burst state is
    decided by the last burst marker of the batch: true after a
    burst-start, false after a burst-end, and as on entry when the batch
    has neither. *)
Theorem transmit_with_tags_burst_state (nitems_read N : Z) (ts : list tag_t) s :
  fst (transmit_with_tags hw nitems_read ts N s) = Some 0 ->
  _in_burst (snd (transmit_with_tags hw nitems_read ts N s)) =
  burst_after (_in_burst s) ts.
Proof.
  unfold transmit_with_tags, transmit_with_tags_flow.
  destruct ts as [|t ts].
  - unfold no_tags_check, after_loop, bladerf_sync_tx, hw_issue.
    cbn [length Nat.eqb]. destruct (_in_burst s) eqn:Hb; cbn [flow_bind].
    + intros _. exact Hb.
    + cbn [tag_loop flow_bind]. rewrite Hb. intros H. discriminate H.
  - rewrite no_tags_check_cons. cbn [flow_bind].
    destruct (tag_loop hw nitems_read N (t :: ts) (init_locals N) s)
      as [l1 s1|r l1 s1] eqn:Hl; cbn [flow_bind].
    + apply tag_loop_continue_burst in Hl. rewrite <- Hl.
      unfold after_loop, bladerf_sync_tx, hw_issue.
      destruct (_in_burst s1) eqn:Hb; intros _; exact Hb.
    + apply tag_loop_return_nonzero in Hl. cbn [fst]. contradiction.
Qed.

Lemma grows_by_refl (n : nat) s : grows_by n s s.
Proof. exists []. rewrite app_nil_r. split; [reflexivity|]. split; [constructor|simpl; lia]. Qed.

Lemma grows_by_trans (n m : nat) s1 s2 s3 :
  grows_by n s1 s2 -> grows_by m s2 s3 -> grows_by (n + m) s1 s3.
Proof.
  intros (a & Ha & Fa & La) (b & Hb & Fb & Lb). exists (a ++ b).
  rewrite Hb, Ha, <- app_assoc. split; [reflexivity|].
  split; [now apply Forall_app|]. rewrite length_app. lia.
Qed.

Lemma grows_by_weaken (n m : nat) s s' :
  (n <= m)%nat -> grows_by n s s' -> grows_by m s s'.
Proof. intros Hnm (a & Ha & Fa & La). exists a. repeat split; auto. lia. Qed.

Lemma tag_body_grows nitems_read N t l s :
  grows_by 2 s (flow_sink (tag_body hw nitems_read N t l s)).
Proof.
  unfold tag_body, bladerf_sync_tx, hw_issue.
  repeat match goal with
         | |- context [if ?b then _ else _] => destruct b
         end;
    unfold grows_by; cbn [calls set_in_burst log_call flow_sink];
    first [ exists []; split; [now rewrite app_nil_r|];
            split; [constructor|simpl; lia]
          | eexists [_]; split; [reflexivity|];
            split; [repeat constructor; simpl; discriminate|simpl; lia]
          | eexists [_; _]; split; [now rewrite <- app_assoc|];
            split; [repeat constructor; simpl; discriminate|simpl; lia] ].
Qed.

Lemma tag_loop_grows nitems_read N (ts : list tag_t) : forall l s,
  grows_by (2 * length ts) s (flow_sink (tag_loop hw nitems_read N ts l s)).
Proof.
  induction ts as [|t ts IH]; intros l s; [apply grows_by_refl|].
  cbn [tag_loop].
  pose proof (tag_body_grows nitems_read N t l s) as Hb.
  destruct (tag_body hw nitems_read N t l s) as [l1 s1|r l1 s1];
    cbn [flow_sink] in *.
  - eapply grows_by_weaken; [|eapply grows_by_trans; [exact Hb|apply IH]].
    cbn [length]. lia.
  - eapply grows_by_weaken; [|exact Hb]. cbn [length]. lia.
Qed.

Lemma after_loop_grows l s : grows_by 1 s (flow_sink (after_loop hw l s)).
Proof.
  unfold after_loop, bladerf_sync_tx, hw_issue.
  destruct (_in_burst s); unfold grows_by;
    cbn [calls set_in_burst log_call flow_sink].
  - eexists [_]. split; [reflexivity|].
    split; [repeat constructor; simpl; discriminate|simpl; lia].
  - exists []. split; [now rewrite app_nil_r|].
    split; [constructor|simpl; lia].
Qed.

Lemma transmit_with_tags_grows (nitems_read N : Z) (ts : list tag_t) s :
  grows_by (2 * length ts + 1) s
    (snd (transmit_with_tags hw nitems_read ts N s)).
Proof.
  assert (H : grows_by (2 * length ts + 1) s
                (flow_sink (transmit_with_tags_flow hw nitems_read ts N s))).
  { unfold transmit_with_tags_flow. destruct ts as [|t ts].
    - unfold no_tags_check. cbn [length Nat.eqb].
      destruct (_in_burst s) eqn:Hb; cbn [flow_bind flow_sink tag_loop].
      + unfold bladerf_sync_tx, hw_issue, grows_by.
        cbn [calls log_call flow_sink]. eexists [_]. split; [reflexivity|].
        split; [repeat constructor; simpl; discriminate|simpl; lia].
      + apply after_loop_grows.
    - rewrite no_tags_check_cons. cbn [flow_bind].
      pose proof (tag_loop_grows nitems_read N (t :: ts) (init_locals N) s) as Hl.
      destruct (tag_loop hw nitems_read N (t :: ts) (init_locals N) s)
        as [l1 s1|r l1 s1]; cbn [flow_bind flow_sink] in *.
      + eapply grows_by_trans; [exact Hl|apply after_loop_grows].
      + eapply grows_by_weaken; [|exact Hl]. lia. }
  unfold transmit_with_tags.
  destruct (transmit_with_tags_flow hw nitems_read ts N s); exact H.
Qed.

(** X7. Whatever the tags, the call writes nothing of the sink but
    [_in_burst] and the trace: [_running], the failure counter and both
    buffers are as before, and the hardware sees at most two transfers per
    tag and one more, each of them a transfer with metadata (never a
    configuration or channel call). *)
Theorem transmit_with_tags_footprint (nitems_read N : Z) (ts : list tag_t) s :
  same_control s (snd (transmit_with_tags hw nitems_read ts N s)) /\
  grows_by (2 * length ts + 1) s
    (snd (transmit_with_tags hw nitems_read ts N s)).
Proof.
  split.
  - apply transmit_with_tags_frame.
  - apply transmit_with_tags_grows.
Qed.

Lemma transmit_open_eq (nitems_read N k : Z) t s :
  _in_burst s = false ->
  key t = "tx_sob"%string -> rel_offset nitems_read t = k ->
  0 <= k < N -> 2 * N <= INT_MAX ->
  transmit_with_tags hw nitems_read [t] N s =
  (Some (hw (length (calls s))),
   set_in_burst true (log_calls [tx_range k (N - 1) flags_burst_start] s)).
Proof.
  intros Hb Hk Hr Hidx HN. unfold INT_MAX in HN.
  unfold transmit_with_tags, transmit_with_tags_flow.
  rewrite no_tags_check_cons. cbn [flow_bind tag_loop].
  rewrite tag_body_sob by assumption. cbn [flow_bind].
  rewrite after_loop_open by reflexivity. cbv zeta.
  cbn [set_meta_flags set_start_idx start_idx end_idx meta flags set_flags
         init_locals meta_zero timestamp].
  rewrite Hr.
  rewrite (wrap_int_id (N - 1)) by (unfold INT_MAX; lia).
  rewrite (wrap_int_id (N - 1 - k)) by (unfold INT_MAX; lia).
  rewrite (wrap_int_id (N - 1 - k + 1)) by (unfold INT_MAX; lia).
  rewrite (wrap_int_id (2 * k)) by (unfold INT_MAX; lia).
  reflexivity.
Qed.

Lemma transmit_continue_eq (nitems_read N : Z) s :
  _in_burst s = true ->
  transmit_with_tags hw nitems_read [] N s =
  (Some (hw (length (calls s))),
   log_call (SyncTx {| tx_buf := Samples 0; tx_count := N;
                       tx_meta := Some meta_zero |}) s).
Proof.
  intros Hb. unfold transmit_with_tags, transmit_with_tags_flow, no_tags_check.
  cbn [length Nat.eqb]. rewrite Hb. reflexivity.
Qed.

(** X8. A burst that spans three calls. The first batch carries the
    burst-start at relative offset [k], the second no tag, the third the
    burst-end at relative offset [e]; all transfers succeed. Then every
    call returns zero and the device receives, in this order, the samples
    [k..N1-1] of the first batch flagged start-now and burst-start, the
    whole second batch and the samples [0..e] of the third with zeroed
    metadata, and the flush flagged burst-end; the sink ends outside a
    burst. *)
Theorem burst_across_calls
    (n1 n2 n3 N1 N2 N3 k e : Z) (t1 t3 : tag_t) s :
  _in_burst s = false ->
  key t1 = "tx_sob"%string -> rel_offset n1 t1 = k ->
  0 <= k < N1 -> 2 * N1 <= INT_MAX ->
  key t3 = "tx_eob"%string -> rel_offset n3 t3 = e ->
  0 <= e -> 2 * e < INT_MAX ->
  (forall i, (i < 4)%nat -> hw (length (calls s) + i)%nat = 0) ->
  let r1 := transmit_with_tags hw n1 [t1] N1 s in
  let r2 := transmit_with_tags hw n2 [] N2 (snd r1) in
  let r3 := transmit_with_tags hw n3 [t3] N3 (snd r2) in
  fst r1 = Some 0 /\ fst r2 = Some 0 /\ fst r3 = Some 0 /\
  snd r3 =
    set_in_burst false
      (log_calls [tx_range k (N1 - 1) flags_burst_start;
                  SyncTx {| tx_buf := Samples 0; tx_count := N2;
                            tx_meta := Some meta_zero |};
                  tx_range 0 e 0; tx_flush] s).
Proof.
  intros Hb Hk1 Hr1 Hidx HN1 Hk3 Hr3 He Hmax Hw r1 r2 r3.
  pose proof (Hw 0%nat ltac:(lia)) as H0. rewrite Nat.add_0_r in H0.
  pose proof (Hw 1%nat ltac:(lia)) as H1.
  pose proof (Hw 2%nat ltac:(lia)) as H2.
  pose proof (Hw 3%nat ltac:(lia)) as H3.
  assert (E1 : r1 = (Some 0, set_in_burst true
                        (log_calls [tx_range k (N1 - 1) flags_burst_start] s))).
  { subst r1. rewrite (transmit_open_eq n1 N1 k) by assumption.
    now rewrite H0. }
  assert (E2 : r2 = (Some 0,
                     log_call (SyncTx {| tx_buf := Samples 0; tx_count := N2;
                                         tx_meta := Some meta_zero |})
                       (snd r1))).
  { subst r2. rewrite transmit_continue_eq by (rewrite E1; reflexivity).
    rewrite E1. cbn [snd log_calls fold_left calls set_in_burst log_call].
    rewrite length_app. cbn [length]. now rewrite H1. }
  assert (E3 : r3 = (Some 0,
                     set_in_burst false
                       (log_calls [tx_range 0 e 0; tx_flush] (snd r2)))).
  { subst r3. rewrite E2, E1.
    cbn [snd log_calls fold_left].
    unfold transmit_with_tags, transmit_with_tags_flow.
    rewrite no_tags_check_cons. cbn [flow_bind tag_loop].
    rewrite (tag_body_eob_ok _ _ t3 _ _ e); try assumption; try reflexivity.
    - cbn [init_locals start_idx]. lia.
    - left. reflexivity.
    - cbn [calls set_in_burst log_call]. rewrite !length_app. cbn [length].
      replace (length (calls s) + 1 + 1)%nat with (length (calls s) + 2)%nat
        by lia. exact H2.
    - cbn [calls set_in_burst log_call]. rewrite !length_app. cbn [length].
      replace (S (length (calls s) + 1 + 1)) with (length (calls s) + 3)%nat
        by lia. exact H3. }
  rewrite E3, E2, E1. cbn [fst snd].
  split; [reflexivity|]. split; [reflexivity|]. split; reflexivity.
Qed.

End BurstMore.

(** * Further properties of the lifecycle *)

Section LifecycleMore.

Context {float : Type}.
Variable hw : nat -> Z.
Variable cfg : config.

Implicit Types (s : sink float).

Lemma log_calls_app (cs ds : list hw_call) s :
  log_calls (cs ++ ds) s = log_calls ds (log_calls cs s).
Proof. unfold log_calls. apply fold_left_app. Qed.

Lemma calls_log_calls (cs : list hw_call) : forall s,
  calls (log_calls cs s) = calls s ++ cs.
Proof.
  induction cs as [|c cs IH]; intros s; cbn [log_calls fold_left].
  - now rewrite app_nil_r.
  - change (fold_left (fun s c => log_call c s) cs (log_call c s))
      with (log_calls cs (log_call c s)).
    rewrite IH. cbn [calls log_call]. now rewrite <- app_assoc.
Qed.

Lemma log_calls_record (cs : list hw_call) : forall s,
  log_calls cs s =
  {| _16icbuf := _16icbuf s; _32fcbuf := _32fcbuf s;
     _in_burst := _in_burst s; _running := _running s;
     _failures := _failures s; calls := calls s ++ cs |}.
Proof.
  induction cs as [|c cs IH]; intros s.
  - destruct s. cbn. now rewrite app_nil_r.
  - change (log_calls (c :: cs) s) with (log_calls cs (log_call c s)).
    rewrite IH. cbn [log_call _16icbuf _32fcbuf _in_burst _running _failures
                       calls]. now rewrite <- app_assoc.
Qed.

Lemma enable_modules_all_ok (chs : list nat) : forall s,
  (forall i, (i < length chs)%nat -> hw (length (calls s) + i)%nat = 0) ->
  enable_modules hw cfg chs s =
  (Returned tt,
   log_calls (map (fun ch => EnableModule ch (channel_enable cfg ch)) chs) s).
Proof.
  induction chs as [|ch chs IH]; intros s Hok; [reflexivity|].
  cbn [enable_modules map]. unfold bladerf_enable_module, hw_issue.
  pose proof (Hok 0%nat ltac:(simpl; lia)) as H0. rewrite Nat.add_0_r in H0.
  rewrite H0. cbn [Z.eqb negb]. rewrite IH; [reflexivity|].
  intros i Hi. cbn [calls log_call]. rewrite length_app. cbn [length].
  replace (length (calls s) + 1 + i)%nat with (length (calls s) + S i)%nat
    by lia.
  apply Hok. simpl. lia.
Qed.

Lemma enable_modules_throw_nonzero (chs : list nat) : forall s st msg s',
  enable_modules hw cfg chs s = (Throw st msg, s') -> st <> 0.
Proof.
  induction chs as [|ch chs IH]; intros s st msg s' H; [discriminate|].
  cbn [enable_modules] in H. unfold bladerf_enable_module, hw_issue in H.
  destruct (hw (length (calls s)) =? 0) eqn:E; cbn [negb] in H.
  - eapply IH; eassumption.
  - injection H as <- _ _. now apply Z.eqb_neq.
Qed.

(** X9. On a device that accepts the configuration call and every
    channel call, [start] returns [true] and leaves a running sink outside
    a burst, with fresh buffers of [2 * _samples_per_buffer] integers and
    [_samples_per_buffer] complex samples; the device has seen the
    configuration call and then one channel call per channel in ascending
    order. *)
Theorem start_succeeds s :
  (forall i, (i < S (max_channels cfg))%nat ->
             hw (length (calls s) + i)%nat = 0) ->
  start hw cfg s =
  (Returned true,
   set_running true
     (set_bufs (Some (replicate (2 * _samples_per_buffer cfg) None))
               (Some (replicate (_samples_per_buffer cfg) None))
        (log_calls (SyncConfig :: enable_calls cfg) (set_in_burst false s)))).
Proof.
  intros Hok. unfold start, bladerf_sync_config, hw_issue.
  pose proof (Hok 0%nat ltac:(lia)) as H0. rewrite Nat.add_0_r in H0.
  cbn [calls set_in_burst]. rewrite H0. cbn [Z.eqb negb].
  rewrite enable_modules_all_ok; [reflexivity|].
  intros i Hi. rewrite length_seq in Hi.
  cbn [calls log_call set_in_burst]. rewrite length_app. cbn [length].
  replace (length (calls s) + 1 + i)%nat with (length (calls s) + S i)%nat
    by lia.
  apply Hok. lia.
Qed.

(** X10. A [start] that throws has not started anything: the status it
    throws is the non-zero status of the refused call, [_running] and both
    buffer pointers are as before, and the burst state has been cleared. *)
Theorem start_throws_frame s (st : Z) (msg : string) :
  fst (start hw cfg s) = Throw st msg ->
  st <> 0 /\
  _running (snd (start hw cfg s)) = _running s /\
  _16icbuf (snd (start hw cfg s)) = _16icbuf s /\
  _32fcbuf (snd (start hw cfg s)) = _32fcbuf s /\
  _in_burst (snd (start hw cfg s)) = false.
Proof.
  unfold start, bladerf_sync_config, hw_issue. cbn [calls set_in_burst].
  destruct (hw (length (calls s)) =? 0) eqn:E; cbn [negb fst snd].
  - set (s1 := log_call SyncConfig (set_in_burst false s)).
    pose proof (enable_modules_frame hw cfg (seq 0 (max_channels cfg)) s1)
      as (Hb & Hr & _ & H16 & H32).
    destruct (enable_modules hw cfg (seq 0 (max_channels cfg)) s1)
      as [[u|st' msg'] s2] eqn:Hen; cbn [fst snd] in *; [discriminate|].
    intros H. injection H as <- <-.
    split; [eapply enable_modules_throw_nonzero; eassumption|].
    repeat split; assumption.
  - intros H. injection H as <- <-.
    split; [now apply Z.eqb_neq|]. repeat split.
Qed.

(** X11. On a device that accepts every channel call, [stop] on a
    running sink returns [true], clears [_running], releases both buffers
    and leaves the burst state and the failure counter alone; the device
    has seen one channel call per channel. *)
Theorem stop_succeeds s :
  _running s = true ->
  (forall i, (i < max_channels cfg)%nat ->
             hw (length (calls s) + i)%nat = 0) ->
  stop hw cfg s =
  (Returned true,
   set_bufs None None (log_calls (enable_calls cfg) (set_running false s))).
Proof.
  intros Hr Hok. unfold stop. rewrite Hr. cbn [negb].
  rewrite enable_modules_all_ok; [reflexivity|].
  intros i Hi. rewrite length_seq in Hi. now apply Hok.
Qed.

(** X12. A [stop] that throws leaks the buffers: the sink was running,
    it is left not running with both buffers still allocated, and a
    following [stop], on whatever device, returns [true] without
    releasing them. *)
Theorem stop_throws_leaks s (st : Z) (msg : string) (hw' : nat -> Z) :
  fst (stop hw cfg s) = Throw st msg ->
  let s1 := snd (stop hw cfg s) in
  _running s = true /\ st <> 0 /\
  _running s1 = false /\
  _16icbuf s1 = _16icbuf s /\ _32fcbuf s1 = _32fcbuf s /\
  stop hw' cfg s1 = (Returned true, s1).
Proof.
  intros H s1. subst s1. revert H. unfold stop.
  destruct (_running s) eqn:Hr; cbn [negb fst snd]; [|discriminate].
  pose proof (enable_modules_frame hw cfg (seq 0 (max_channels cfg))
                (set_running false s)) as (_ & Hrun & _ & H16 & H32).
  destruct (enable_modules hw cfg (seq 0 (max_channels cfg))
              (set_running false s)) as [[u|st' msg'] s2] eqn:Hen;
    cbn [fst snd] in *; [discriminate|].
  intros H. injection H as <- <-.
  split; [reflexivity|].
  split; [eapply enable_modules_throw_nonzero; eassumption|].
  split; [exact Hrun|]. split; [exact H16|]. split; [exact H32|].
  now rewrite Hrun.
Qed.

(** X13. Neither [start] nor [stop] touches the failure counter, whether
    they return or throw: failures counted before a restart still count
    towards the threshold after it. *)
Theorem lifecycle_keeps_failures s :
  _failures (snd (start hw cfg s)) = _failures s /\
  _failures (snd (stop hw cfg s)) = _failures s.
Proof.
  split.
  - unfold start, bladerf_sync_config, hw_issue. cbn [calls set_in_burst].
    destruct (hw (length (calls s)) =? 0); cbn [negb snd]; [|reflexivity].
    set (s1 := log_call SyncConfig (set_in_burst false s)).
    pose proof (enable_modules_frame hw cfg (seq 0 (max_channels cfg)) s1)
      as (_ & _ & Hf & _).
    destruct (enable_modules hw cfg (seq 0 (max_channels cfg)) s1)
      as [[u|st' msg'] s2]; cbn [snd] in *; exact Hf.
  - unfold stop. destruct (_running s); cbn [negb snd]; [|reflexivity].
    pose proof (enable_modules_frame hw cfg (seq 0 (max_channels cfg))
                  (set_running false s)) as (_ & _ & Hf & _).
    destruct (enable_modules hw cfg (seq 0 (max_channels cfg))
                (set_running false s)) as [[u|st' msg'] s2];
      cbn [snd] in *; exact Hf.
Qed.

(** X14. [start] followed by [stop] on a healthy device: both return
    [true] and the sink is back to not running with no buffer, outside a
    burst, its failure counter untouched; the device has seen the
    configuration call and two passes over the channels. *)
Theorem start_stop_round_trip s :
  (forall i, (i < S (2 * max_channels cfg))%nat ->
             hw (length (calls s) + i)%nat = 0) ->
  fst (start hw cfg s) = Returned true /\
  stop hw cfg (snd (start hw cfg s)) =
  (Returned true,
   set_running false
     (set_bufs None None
        (log_calls (SyncConfig :: enable_calls cfg ++ enable_calls cfg)
           (set_in_burst false s)))).
Proof.
  intros Hok.
  assert (E : start hw cfg s =
              (Returned true,
               set_running true
                 (set_bufs (Some (replicate (2 * _samples_per_buffer cfg) None))
                    (Some (replicate (_samples_per_buffer cfg) None))
                    (log_calls (SyncConfig :: enable_calls cfg)
                       (set_in_burst false s))))).
  { unfold start, bladerf_sync_config, hw_issue.
    pose proof (Hok 0%nat ltac:(lia)) as H0. rewrite Nat.add_0_r in H0.
    cbn [calls set_in_burst]. rewrite H0. cbn [Z.eqb negb].
    rewrite enable_modules_all_ok; [reflexivity|].
    intros i Hi. rewrite length_seq in Hi.
    cbn [calls log_call set_in_burst]. rewrite length_app. cbn [length].
    replace (length (calls s) + 1 + i)%nat with (length (calls s) + S i)%nat
      by lia.
    apply Hok. lia. }
  rewrite E. cbn [fst snd]. split; [reflexivity|].
  unfold stop. cbn [_running set_running negb].
  rewrite enable_modules_all_ok.
  - change (SyncConfig :: enable_calls cfg ++ enable_calls cfg)
      with ((SyncConfig :: enable_calls cfg) ++ enable_calls cfg).
    rewrite log_calls_app, !log_calls_record. reflexivity.
  - intros i Hi. rewrite length_seq in Hi.
    cbn [calls set_running set_bufs].
    rewrite calls_log_calls. cbn [calls set_in_burst].
    rewrite length_app. cbn [length]. unfold enable_calls.
    rewrite length_map, length_seq.
    replace (length (calls s) + S (max_channels cfg) + i)%nat
      with (length (calls s) + (S (max_channels cfg) + i))%nat by lia.
    apply Hok. lia.
Qed.

End LifecycleMore.

(** * Further properties of [work] *)

Section WorkMore.

Context {float : Type}.
Variable hw : nat -> Z.
Variable cfg : config.
Variable volk_convert : float -> Z.
Variable MAX_CONSECUTIVE_FAILURES : Z.

Implicit Types (s : sink float) (b : batch float).

(** X15. Once [stop] has been called, whatever its outcome, [work]
    returns 0 and does nothing: it makes no hardware call and leaves the
    sink as it is. *)
Theorem work_after_stop (hw' : nat -> Z) b s :
  work hw' cfg volk_convert MAX_CONSECUTIVE_FAILURES b (snd (stop hw cfg s)) =
  Some (0, snd (stop hw cfg s)).
Proof.
  unfold work. now rewrite stop_not_running.
Qed.

Lemma copy_one_length (input : list (list (gr_complex float))) (n : nat)
    (st st' : intl_state float) :
  copy_one input n st = Some st' ->
  length (intl_buf st') = length (intl_buf st).
Proof.
  unfold copy_one. intros H.
  destruct (in_pos st !! n); [|discriminate].
  destruct (input !! n) as [ch|]; [|discriminate].
  destruct (ch !! _); [|discriminate].
  destruct (_ <? _)%nat; [|discriminate].
  injection H as <-. cbn [intl_buf]. apply length_insert.
Qed.

Lemma copy_frame_length (input : list (list (gr_complex float)))
    (ns : list nat) : forall (st st' : intl_state float),
  copy_frame input ns st = Some st' ->
  length (intl_buf st') = length (intl_buf st).
Proof.
  induction ns as [|n ns IH]; intros st st' H; cbn [copy_frame] in H.
  - now injection H as <-.
  - destruct (copy_one input n st) as [st1|] eqn:E; [|discriminate].
    rewrite (IH _ _ H). eapply copy_one_length; eassumption.
Qed.

Lemma copy_frames_length (input : list (list (gr_complex float)))
    (streams frames : nat) : forall (st st' : intl_state float),
  copy_frames input streams frames st = Some st' ->
  length (intl_buf st') = length (intl_buf st).
Proof.
  induction frames as [|k IH]; intros st st' H; cbn [copy_frames] in H.
  - now injection H as <-.
  - destruct (copy_frame input (seq 0 streams) st) as [st1|] eqn:E;
      [|discriminate].
    rewrite (IH _ _ H). eapply copy_frame_length; eassumption.
Qed.

Lemma copy_input_length (streams : nat) (N : Z)
    (input : list (list (gr_complex float)))
    (buf buf' : list (option (gr_complex float))) :
  copy_input streams N input buf = Some buf' -> length buf' = length buf.
Proof.
  unfold copy_input. destruct (1 <? streams)%nat.
  - destruct (copy_frames _ _ _ _) as [st|] eqn:E; [|discriminate].
    intros H. injection H as <-.
    apply copy_frames_length in E. exact E.
  - destruct (input !! 0%nat) as [ch|]; [|discriminate].
    destruct (_ && _) eqn:E; [|discriminate].
    apply andb_true_iff in E. destruct E as [E1 E2].
    apply Nat.leb_le in E1. apply Nat.leb_le in E2.
    intros H. injection H as <-.
    rewrite length_app, length_fmap, length_take_le, length_drop by lia. lia.
Qed.

Lemma volk_length (out out' : list (option Z)) (inp : list (option float))
    (np : nat) :
  volk_32f_s32f_convert_16i volk_convert out inp np = Some out' ->
  length out' = length out.
Proof.
  unfold volk_32f_s32f_convert_16i.
  destruct (_ && _) eqn:E; [|discriminate].
  apply andb_true_iff in E. destruct E as [E1 E2].
  apply Nat.leb_le in E1. apply Nat.leb_le in E2.
  intros H. injection H as <-.
  rewrite length_app, length_fmap, length_take_le, length_drop by lia. lia.
Qed.

Lemma work_convert_lengths b s s1 :
  work_convert cfg volk_convert b s = Some s1 ->
  length <$> _32fcbuf s1 = length <$> _32fcbuf s /\
  length <$> _16icbuf s1 = length <$> _16icbuf s.
Proof.
  unfold work_convert. intros H.
  destruct (_32fcbuf s) as [b32|]; [|discriminate].
  destruct (_16icbuf s) as [b16|]; [|discriminate].
  destruct (copy_input _ _ _ _) as [b32'|] eqn:Ec; [|discriminate].
  destruct (volk_32f_s32f_convert_16i _ _ _ _) as [b16'|] eqn:Ev;
    [|discriminate].
  injection H as <-. cbn.
  apply copy_input_length in Ec. apply volk_length in Ev.
  now rewrite Ec, Ev.
Qed.

(** X16. A [work] call never stops the sink and never resizes its
    buffers, not even when it returns [WORK_DONE]: [_running] and the
    lengths of both buffers are as before, and the trace of hardware calls
    only grows. *)
Theorem work_keeps_running b s (r : Z) s' :
  work hw cfg volk_convert MAX_CONSECUTIVE_FAILURES b s = Some (r, s') ->
  _running s' = _running s /\
  length <$> _32fcbuf s' = length <$> _32fcbuf s /\
  length <$> _16icbuf s' = length <$> _16icbuf s /\
  exists new, calls s' = calls s ++ new.
Proof.
  unfold work. destruct (_running s) eqn:Hr; cbn [negb].
  - unfold work_status, work_transmit.
    destruct (work_convert cfg volk_convert b s) as [s1|] eqn:Hc;
      [|discriminate].
    pose proof (work_convert_lengths _ _ _ Hc) as (L32 & L16).
    apply work_convert_frame in Hc. destruct Hc as (Hr1 & _ & _ & Hcalls).
    assert (Htx : forall st s2,
               (if format_is_meta cfg
                then transmit_with_tags hw (nitems_read b) (tags b)
                       (noutput_items b) s1
                else let '(st, s) := bladerf_sync_tx hw (Samples 0)
                                       (noutput_items b) None s1 in
                     (Some st, s)) = (Some st, s2) ->
               same_control s1 s2 /\ exists new, calls s2 = calls s1 ++ new).
    { intros st s2. destruct (format_is_meta cfg).
      - intros E.
        pose proof (transmit_with_tags_frame hw (nitems_read b)
                      (noutput_items b) (tags b) s1) as Hsc.
        destruct (transmit_with_tags_grows hw (nitems_read b)
                    (noutput_items b) (tags b) s1) as (new & Hn & _).
        rewrite E in Hsc, Hn. cbn [snd] in *. split; [exact Hsc|].
        now exists new.
      - unfold bladerf_sync_tx, hw_issue. intros E. injection E as _ <-.
        split; [unfold same_control; cbn; tauto|].
        eexists. reflexivity. }
    destruct (if format_is_meta cfg then _ else _) as [[st|] s2] eqn:Et;
      [|discriminate].
    destruct (Htx st s2 eq_refl) as [(Hr2 & _ & H16 & H32) (new & Hnew)].
    intros H. injection H as H.
    pose proof (work_handle_spec MAX_CONSECUTIVE_FAILURES (noutput_items b)
                  st s2) as (Hr3 & _).
    assert (Hbufs : _32fcbuf s' = _32fcbuf s2 /\ _16icbuf s' = _16icbuf s2 /\
                    calls s' = calls s2).
    { unfold work_handle in H.
      destruct (negb (st =? 0));
        [destruct (_ >=? _)|]; injection H as _ <-; cbn; tauto. }
    destruct Hbufs as (B32 & B16 & Bc).
    rewrite H in Hr3. cbn [snd] in Hr3.
    split; [congruence|].
    split; [rewrite B32, H32; exact L32|].
    split; [rewrite B16, H16; exact L16|].
    exists new. congruence.
  - intros H. injection H as _ <-. rewrite Hr.
    repeat split. exists []. now rewrite app_nil_r.
Qed.

Lemma convert_prefix (l : list (gr_complex float))
    (rest : list (option (gr_complex float))) :
  option_map volk_convert
    <$> take (2 * length l) (as_floats ((Some <$> l) ++ rest)) =
  Some <$> iq_words volk_convert l.
Proof.
  induction l as [|c l IH]; [reflexivity|].
  replace (2 * length (c :: l))%nat with (S (S (2 * length l)))
    by (simpl; lia).
  destruct c as [re im].
  unfold as_floats, iq_words in *. cbn [fmap list_fmap app flat_map take fst snd].
  cbn [option_map]. now rewrite IH.
Qed.

Lemma length_round_robin2 {A : Type} (x : list A) : forall y : list A,
  length x = length y -> length (round_robin2 x y) = (2 * length x)%nat.
Proof.
  induction x as [|a x IH]; intros [|c y] H; cbn [length] in H; try lia;
    [reflexivity|].
  cbn [round_robin2 length]. rewrite IH by lia. lia.
Qed.

Lemma copy_input_two_eq (N : Z) (M : nat) (ch0 ch1 : list (gr_complex float))
    (buf : list (option (gr_complex float))) :
  0 <= N < 2 ^ 64 ->
  M = Z.to_nat (N / 2) ->
  (M <= length ch0)%nat -> (M <= length ch1)%nat ->
  (2 * M <= length buf)%nat ->
  copy_input 2 N [ch0; ch1] buf =
  Some ((Some <$> round_robin2 (take M ch0) (take M ch1)) ++ drop (2 * M) buf).
Proof.
  intros HN HM H0 H1 Hbuf.
  unfold copy_input. cbn [Nat.ltb Nat.leb length].
  unfold size_t_of_int. rewrite Z.mod_small by lia.
  change (Z.of_nat 2) with 2. rewrite <- HM.
  pose proof (copy_frames_two ch0 ch1 M 0 [] buf) as Hc.
  cbn [app length drop] in Hc. cbn [replicate]. rewrite Hc by lia.
  reflexivity.
Qed.

(** X17. With one stream the scratch buffers hold, after the copy and
    the conversion, the first [noutput_items] input samples and their
    wire format: I then Q of each sample in input order, converted; the
    cells behind them are left as they were. *)
Theorem work_convert_one_stream b s
    (out32 : list (option (gr_complex float))) (out16 : list (option Z))
    (ch : list (gr_complex float)) (n : nat) :
  (nstreams cfg <= 1)%nat ->
  _32fcbuf s = Some out32 -> _16icbuf s = Some out16 ->
  input_items b !! 0%nat = Some ch ->
  noutput_items b = Z.of_nat n ->
  2 * noutput_items b <= INT_MAX ->
  (n <= length ch)%nat -> (n <= length out32)%nat ->
  (2 * n <= length out16)%nat ->
  work_convert cfg volk_convert b s =
  Some (set_bufs
          (Some ((Some <$> iq_words volk_convert (take n ch))
                   ++ drop (2 * n) out16))
          (Some ((Some <$> take n ch) ++ drop n out32)) s).
Proof.
  intros Hn H32 H16 Hin HN Hmax Hch Hb32 Hb16. unfold INT_MAX in Hmax.
  unfold work_convert, copy_input. rewrite H32, H16, Hin.
  replace (1 <? nstreams cfg)%nat with false
    by (symmetry; apply Nat.ltb_ge; exact Hn).
  unfold size_t_of_int, wrap_uint64, sizeof_gr_complex.
  rewrite (Z.mod_small (noutput_items b)) by lia.
  rewrite Z.mod_small by lia. rewrite Z.div_mul by lia.
  rewrite HN, Nat2Z.id.
  replace (n <=? length ch)%nat with true by (symmetry; now apply Nat.leb_le).
  replace (n <=? length out32)%nat with true
    by (symmetry; now apply Nat.leb_le).
  cbn [andb]. unfold volk_32f_s32f_convert_16i.
  rewrite (wrap_int_id (2 * Z.of_nat n)) by (unfold INT_MAX; lia).
  unfold wrap_uint32. rewrite Z.mod_small by lia.
  replace (Z.to_nat (2 * Z.of_nat n)) with (2 * n)%nat by lia.
  assert (Hlen : length ((Some <$> take n ch) ++ drop n out32) = length out32).
  { rewrite length_app, length_fmap, length_take_le, length_drop by lia. lia. }
  rewrite length_as_floats, Hlen.
  replace (2 * n <=? 2 * length out32)%nat with true
    by (symmetry; apply Nat.leb_le; lia).
  replace (2 * n <=? length out16)%nat with true
    by (symmetry; now apply Nat.leb_le).
  cbn [andb].
  replace (2 * n)%nat with (2 * length (take n ch))%nat at 1
    by (rewrite length_take_le; lia).
  now rewrite convert_prefix.
Qed.

(** X18. With two streams and an even item count [2 M] the converted
    buffer holds the wire format of the two streams in round-robin:
    I and Q of [ch0[0]], I and Q of [ch1[0]], I and Q of [ch0[1]], and so
    on for [M] time steps. *)
Theorem work_convert_two_streams b s
    (out32 : list (option (gr_complex float))) (out16 : list (option Z))
    (ch0 ch1 : list (gr_complex float)) (M : nat) :
  nstreams cfg = 2%nat ->
  _32fcbuf s = Some out32 -> _16icbuf s = Some out16 ->
  input_items b = [ch0; ch1] ->
  noutput_items b = 2 * Z.of_nat M ->
  2 * noutput_items b <= INT_MAX ->
  (M <= length ch0)%nat -> (M <= length ch1)%nat ->
  (2 * M <= length out32)%nat -> (4 * M <= length out16)%nat ->
  work_convert cfg volk_convert b s =
  Some (set_bufs
          (Some ((Some <$> iq_words volk_convert
                             (round_robin2 (take M ch0) (take M ch1)))
                   ++ drop (4 * M) out16))
          (Some ((Some <$> round_robin2 (take M ch0) (take M ch1))
                   ++ drop (2 * M) out32)) s).
Proof.
  intros Hn H32 H16 Hin HN Hmax H0 H1 Hb32 Hb16. unfold INT_MAX in Hmax.
  unfold work_convert. rewrite H32, H16, Hin, Hn.
  rewrite (copy_input_two_eq (noutput_items b) M); try assumption; try lia.
  2:{ rewrite HN, Z.mul_comm, Z.div_mul by lia. now rewrite Nat2Z.id. }
  unfold volk_32f_s32f_convert_16i.
  rewrite (wrap_int_id (2 * noutput_items b)) by (unfold INT_MAX; lia).
  unfold wrap_uint32. rewrite Z.mod_small by lia.
  replace (Z.to_nat (2 * noutput_items b)) with (4 * M)%nat by lia.
  set (rr := round_robin2 (take M ch0) (take M ch1)).
  assert (Hrr : length rr = (2 * M)%nat).
  { subst rr. rewrite length_round_robin2; rewrite !length_take_le; lia. }
  assert (Hlen : length ((Some <$> rr) ++ drop (2 * M) out32) = length out32).
  { rewrite length_app, length_fmap, Hrr, length_drop. lia. }
  rewrite length_as_floats, Hlen.
  replace (4 * M <=? 2 * length out32)%nat with true
    by (symmetry; apply Nat.leb_le; lia).
  replace (4 * M <=? length out16)%nat with true
    by (symmetry; now apply Nat.leb_le).
  cbn [andb].
  replace (4 * M)%nat with (2 * length rr)%nat at 1 by lia.
  now rewrite convert_prefix.
Qed.

(** X19. With two streams a call reads only the first
    [noutput_items / 2] items of each stream: what the streams hold from
    that index on has no influence on the value returned nor on the
    sink. *)
Theorem work_two_streams_reads_half b s
    (out32 : list (option (gr_complex float)))
    (ch0 ch1 : list (gr_complex float)) (M : nat) :
  nstreams cfg = 2%nat ->
  _32fcbuf s = Some out32 ->
  input_items b = [ch0; ch1] ->
  0 <= noutput_items b < 2 ^ 64 ->
  M = Z.to_nat (noutput_items b / 2) ->
  (M <= length ch0)%nat -> (M <= length ch1)%nat ->
  (2 * M <= length out32)%nat ->
  work hw cfg volk_convert MAX_CONSECUTIVE_FAILURES b s =
  work hw cfg volk_convert MAX_CONSECUTIVE_FAILURES
    {| noutput_items := noutput_items b;
       input_items := [take M ch0; take M ch1];
       tags := tags b; nitems_read := nitems_read b |} s.
Proof.
  intros Hn H32 Hin HN HM H0 H1 Hb32.
  unfold work, work_status, work_transmit, work_convert.
  cbn [noutput_items input_items tags nitems_read].
  rewrite H32, Hin, Hn.
  rewrite (copy_input_two_eq (noutput_items b) M ch0 ch1) by assumption.
  rewrite (copy_input_two_eq (noutput_items b) M (take M ch0) (take M ch1))
    by (try assumption; rewrite length_take_le; lia).
  rewrite !take_take, Nat.min_id. reflexivity.
Qed.

Lemma tag_body_protocol_error nitems_read N (t : tag_t) (l : locals) s :
  protocol_error nitems_read t l s ->
  exists l', tag_body hw nitems_read N t l s =
             Return (Some BLADERF_ERR_INVAL) l' s.
Proof.
  intros Herr. unfold tag_body.
  destruct Herr as [[Hk Hb]|[[Hk Hb]|(Hk & Hb & Hidx)]]; rewrite Hk, Hb;
    cbn [String.eqb Ascii.eqb Bool.eqb negb].
  - now exists l.
  - now exists l.
  - exists (set_end_idx (rel_offset nitems_read t) l).
    cbn [set_end_idx start_idx end_idx].
    replace ((start_idx l =? INVALID_IDX)
             || (start_idx l >? rel_offset nitems_read t)) with true;
      [reflexivity|].
    symmetry. apply orb_true_iff.
    destruct Hidx as [Hi|Hi]; [left; now apply Z.eqb_eq|right].
    rewrite Z.gtb_ltb. apply Z.ltb_lt. lia.
Qed.

(** X20. A batch whose tags violate the burst protocol counts as a
    failed call: [work] adds one to the failure counter although no
    transfer failed, and returns [WORK_DONE] when that reaches the
    threshold, the item count otherwise; apart from the counter the sink
    is as the tags before the offending one left it. *)
Theorem work_protocol_error_counts b s s1 s2
    (pre post : list tag_t) (t : tag_t) (l1 : locals) :
  _running s = true ->
  format_is_meta cfg = true ->
  work_convert cfg volk_convert b s = Some s1 ->
  tags b = pre ++ t :: post ->
  tag_loop hw (nitems_read b) (noutput_items b) pre
    (init_locals (noutput_items b)) s1 = Continue l1 s2 ->
  protocol_error (nitems_read b) t l1 s2 ->
  work hw cfg volk_convert MAX_CONSECUTIVE_FAILURES b s =
  Some (if MAX_CONSECUTIVE_FAILURES <=? _failures s + 1
        then WORK_DONE else noutput_items b,
        set_failures (_failures s + 1) s2).
Proof.
  intros Hr Hfmt Hc Htags Hpre Herr.
  rewrite work_running by exact Hr.
  unfold work_status, work_transmit. rewrite Hc, Hfmt, Htags.
  destruct (tag_body_protocol_error (nitems_read b) (noutput_items b) t l1 s2
              Herr) as (l' & Hbody).
  unfold transmit_with_tags, transmit_with_tags_flow.
  rewrite no_tags_check_nonempty. cbn [flow_bind].
  rewrite tag_loop_app, Hpre. cbn [flow_bind tag_loop]. rewrite Hbody.
  cbn [flow_bind].
  apply work_convert_frame in Hc. destruct Hc as (_ & Hf1 & _).
  pose proof (tag_loop_frame hw (nitems_read b) (noutput_items b) pre
                (init_locals (noutput_items b)) s1) as Hfr.
  rewrite Hpre in Hfr. destruct Hfr as (_ & Hf2 & _). cbn [flow_sink] in Hf2.
  unfold work_handle. cbn [BLADERF_ERR_INVAL Z.eqb negb].
  cbn [_failures set_failures]. rewrite Z.geb_leb, Hf2, Hf1.
  destruct (MAX_CONSECUTIVE_FAILURES <=? _failures s + 1); reflexivity.
Qed.

(** X21. A call of [work] right after a successful [start] is defined
    for every batch that fits: with one stream and no metadata, an item
    count within [_samples_per_buffer] and a successful transfer, it
    returns the item count, puts the failure counter to zero and issues
    exactly one transfer of the whole batch. *)
Theorem work_after_start b s (ch : list (gr_complex float)) :
  format_is_meta cfg = false ->
  nstreams cfg = 1%nat ->
  (forall i, (i < S (S (max_channels cfg)))%nat ->
             hw (length (calls s) + i)%nat = 0) ->
  input_items b !! 0%nat = Some ch ->
  0 <= noutput_items b ->
  2 * noutput_items b <= INT_MAX ->
  (Z.to_nat (noutput_items b) <= length ch)%nat ->
  (Z.to_nat (noutput_items b) <= _samples_per_buffer cfg)%nat ->
  exists s',
    work hw cfg volk_convert MAX_CONSECUTIVE_FAILURES b
      (snd (start hw cfg s)) = Some (noutput_items b, s') /\
    _failures s' = 0 /\ _running s' = true /\
    calls s' = calls s ++ SyncConfig :: enable_calls cfg
               ++ [SyncTx {| tx_buf := Samples 0;
                             tx_count := noutput_items b;
                             tx_meta := None |}].
Proof.
  intros Hfmt Hn Hok Hin H0 Hmax Hch Hspb.
  assert (E : start hw cfg s =
              (Returned true,
               set_running true
                 (set_bufs (Some (replicate (2 * _samples_per_buffer cfg) None))
                    (Some (replicate (_samples_per_buffer cfg) None))
                    (log_calls (SyncConfig :: enable_calls cfg)
                       (set_in_burst false s))))).
  { unfold start, bladerf_sync_config, hw_issue.
    pose proof (Hok 0%nat ltac:(lia)) as Hz. rewrite Nat.add_0_r in Hz.
    cbn [calls set_in_burst]. rewrite Hz. cbn [Z.eqb negb].
    rewrite enable_modules_all_ok; [reflexivity|].
    intros i Hi. rewrite length_seq in Hi.
    cbn [calls log_call set_in_burst]. rewrite length_app. cbn [length].
    replace (length (calls s) + 1 + i)%nat with (length (calls s) + S i)%nat
      by lia.
    apply Hok. lia. }
  rewrite E. cbn [snd].
  set (s0 := set_running true _).
  assert (Hcalls : calls s0 = calls s ++ SyncConfig :: enable_calls cfg).
  { subst s0. cbn [calls set_running set_bufs]. now rewrite calls_log_calls. }
  destruct (work_plain_defined hw cfg volk_convert b s0
              (replicate (_samples_per_buffer cfg) None)
              (replicate (2 * _samples_per_buffer cfg) None) ch)
    as (s1 & Hst & _); try assumption; try reflexivity.
  - now rewrite length_replicate.
  - rewrite length_replicate. lia.
  - rewrite work_running by reflexivity. rewrite Hst.
    assert (Hz : hw (length (calls s0)) = 0).
    { rewrite Hcalls, length_app. cbn [length]. unfold enable_calls.
      rewrite length_map, length_seq. apply Hok. lia. }
    rewrite Hz. unfold work_handle. cbn [Z.eqb negb].
    eexists. split; [reflexivity|]. split; [reflexivity|].
    unfold work_status, work_transmit in Hst. rewrite Hfmt in Hst.
    destruct (work_convert cfg volk_convert b s0) as [s2|] eqn:Hc;
      [|discriminate].
    pose proof (work_convert_frame cfg volk_convert b s0 s2 Hc)
      as (Hr2 & _ & _ & Hc2).
    unfold bladerf_sync_tx, hw_issue in Hst. injection Hst as _ <-.
    cbn [_running calls set_failures log_call].
    split; [rewrite Hr2; reflexivity|].
    rewrite Hc2, Hcalls, <- app_assoc. reflexivity.
Qed.

End WorkMore.

(** * Properties of the antenna setter *)

Section AntennaMore.

Context {float : Type}.
Variable hw : nat -> Z.
Variable common_set_antenna : config -> outcome config.
Variable volk_convert : float -> Z.
Variable MAX_CONSECUTIVE_FAILURES : Z.

Implicit Types (s : sink float).

Lemma stop_ok_eq (cfg : config) s :
  _running s = true ->
  (forall i, (i < max_channels cfg)%nat ->
             hw (length (calls s) + i)%nat = 0) ->
  stop hw cfg s =
  (Returned true,
   set_bufs None None (log_calls (enable_calls cfg) (set_running false s))).
Proof.
  intros Hr Hok. unfold stop. rewrite Hr. cbn [negb].
  rewrite enable_modules_all_ok; [reflexivity|].
  intros i Hi. rewrite length_seq in Hi. now apply Hok.
Qed.

Lemma start_ok_eq (cfg : config) s :
  (forall i, (i < S (max_channels cfg))%nat ->
             hw (length (calls s) + i)%nat = 0) ->
  start hw cfg s =
  (Returned true,
   set_running true
     (set_bufs (Some (replicate (2 * _samples_per_buffer cfg) None))
               (Some (replicate (_samples_per_buffer cfg) None))
        (log_calls (SyncConfig :: enable_calls cfg) (set_in_burst false s)))).
Proof.
  intros Hok. unfold start, bladerf_sync_config, hw_issue.
  pose proof (Hok 0%nat ltac:(lia)) as H0. rewrite Nat.add_0_r in H0.
  cbn [calls set_in_burst]. rewrite H0. cbn [Z.eqb negb].
  rewrite enable_modules_all_ok; [reflexivity|].
  intros i Hi. rewrite length_seq in Hi.
  cbn [calls log_call set_in_burst]. rewrite length_app. cbn [length].
  replace (length (calls s) + 1 + i)%nat with (length (calls s) + S i)%nat
    by lia.
  apply Hok. lia.
Qed.

(** X22. Changing the antenna of a running sink on a healthy device
    restarts it: the sink is running again with fresh buffers, and its
    burst state is cleared without any transfer, so a burst that was open
    is dropped without its burst-end flush. The device sees the channel
    calls of [stop], the configuration call and the channel calls of
    [start] under the new configuration. *)
Theorem set_antenna_restarts (cfg cfg' : config) s :
  _running s = true ->
  common_set_antenna cfg = Returned cfg' ->
  (forall i, (i < max_channels cfg + S (max_channels cfg'))%nat ->
             hw (length (calls s) + i)%nat = 0) ->
  set_antenna hw common_set_antenna cfg s =
  (Returned tt,
   (cfg',
    set_running true
      (set_bufs (Some (replicate (2 * _samples_per_buffer cfg') None))
                (Some (replicate (_samples_per_buffer cfg') None))
         (log_calls (enable_calls cfg ++ SyncConfig :: enable_calls cfg')
            (set_in_burst false s))))).
Proof.
  intros Hr Hc Hok. unfold set_antenna. rewrite Hr.
  rewrite stop_ok_eq by (try assumption; intros i Hi; apply Hok; lia).
  rewrite Hc. rewrite start_ok_eq.
  - rewrite log_calls_app, !log_calls_record. reflexivity.
  - intros i Hi. cbn [calls set_bufs]. rewrite calls_log_calls.
    cbn [calls set_running]. rewrite length_app. unfold enable_calls at 1.
    rewrite length_map, length_seq.
    replace (length (calls s) + max_channels cfg + i)%nat
      with (length (calls s) + (max_channels cfg + i))%nat by lia.
    apply Hok. lia.
Qed.

(** X23. An antenna that the base class refuses leaves a sink that was
    running stopped: [stop] has run, [start] has not, the buffers are
    released, the exception is passed on, and [work] returns 0 from then
    on. *)
Theorem set_antenna_refused_stops (cfg : config) s (st : Z) (msg : string)
    (b : batch float) :
  _running s = true ->
  common_set_antenna cfg = Throw st msg ->
  (forall i, (i < max_channels cfg)%nat ->
             hw (length (calls s) + i)%nat = 0) ->
  let s' := set_bufs None None
              (log_calls (enable_calls cfg) (set_running false s)) in
  set_antenna hw common_set_antenna cfg s = (Throw st msg, (cfg, s')) /\
  work hw cfg volk_convert MAX_CONSECUTIVE_FAILURES b s' = Some (0, s').
Proof.
  intros Hr Hc Hok s'. split.
  - unfold set_antenna. rewrite Hr, stop_ok_eq by assumption.
    now rewrite Hc.
  - unfold work. subst s'. rewrite log_calls_record. reflexivity.
Qed.

End AntennaMore.

(** * The further properties at sample instances *)

Import Scenario.

Lemma rel_offset_difference_witness :
  - 2 ^ 31 <= offset (sob (far + 7)) - far <= INT_MAX /\
  rel_offset far (sob (far + 7)) = 7.
Proof.
  assert (H : - 2 ^ 31 <= offset (sob (far + 7)) - far <= INT_MAX)
    by (split; discriminate).
  split; [exact H|].
  exact (rel_offset_difference far (sob (far + 7)) H).
Defined.

Lemma transmit_with_tags_whole_burst_witness :
  _in_burst idle = false /\
  transmit_with_tags hw_ok 1000
    ([rx_time 1001] ++ sob 1005 :: [rx_time 1010] ++ eob 1020 :: [rx_time 1025])
    32 idle =
  (Some 0,
   set_in_burst false
     (log_calls [tx_range 5 20 flags_burst_start; tx_flush] idle)).
Proof.
  assert (U : forall off, Forall unrecognized [rx_time off])
    by (intros off; constructor; [split; discriminate|constructor]).
  split; [reflexivity|].
  refine (transmit_with_tags_whole_burst hw_ok 1000 32 5 20 [rx_time 1001]
            [rx_time 1010] [rx_time 1025] (sob 1005) (eob 1020) idle
            eq_refl (U _) (U _) (U _) eq_refl eq_refl eq_refl eq_refl _ _
            eq_refl eq_refl).
  - split; discriminate.
  - reflexivity.
Defined.

Lemma transmit_with_tags_close_burst_witness :
  _in_burst mid_burst = true /\
  transmit_with_tags hw_ok 1000 ([] ++ eob 1020 :: []) 32 mid_burst =
  (Some 0, set_in_burst false (log_calls [tx_range 0 20 0; tx_flush] mid_burst)).
Proof.
  split; [reflexivity|].
  refine (transmit_with_tags_close_burst hw_ok 1000 32 20 [] [] (eob 1020)
            mid_burst eq_refl (Forall_nil_2 _) (Forall_nil_2 _) eq_refl eq_refl _ _
            eq_refl eq_refl).
  - discriminate.
  - reflexivity.
Defined.

Lemma transmit_with_tags_back_to_back_witness :
  _in_burst mid_burst = true /\
  transmit_with_tags (hw_fail_first 0) 1000
    ([] ++ eob 1010 :: [] ++ sob 1020 :: []) 32 mid_burst =
  (Some 0,
   set_in_burst true
     (log_calls [tx_range 0 10 0; tx_flush;
                 tx_range 20 (32 - 1) flags_burst_start] mid_burst)).
Proof.
  split; [reflexivity|].
  refine (transmit_with_tags_back_to_back (hw_fail_first 0) 1000 32 10 20
            [] [] [] (eob 1010) (sob 1020) mid_burst
            eq_refl (Forall_nil_2 _) (Forall_nil_2 _) (Forall_nil_2 _)
            eq_refl eq_refl eq_refl eq_refl _ _ _ _ eq_refl eq_refl).
  - discriminate.
  - split; [discriminate|reflexivity].
  - reflexivity.
  - discriminate.
Defined.

Lemma transmit_with_tags_ignores_other_tags_witness :
  0 <= 32 <= INT_MAX /\
  transmit_with_tags hw_ok 1000 [rx_time 1003; sob 1005; rx_time 1007] 32 idle =
  transmit_with_tags hw_ok 1000 [sob 1005] 32 idle.
Proof.
  assert (H : 0 <= 32 <= INT_MAX) by (split; discriminate).
  split; [exact H|].
  exact (transmit_with_tags_ignores_other_tags hw_ok 1000 32
           [rx_time 1003; sob 1005; rx_time 1007] idle H).
Defined.

Lemma transmit_with_tags_burst_state_witness :
  fst (transmit_with_tags hw_ok 1000 [sob 1005; eob 1020; sob 1025] 32 idle) =
    Some 0 /\
  _in_burst
    (snd (transmit_with_tags hw_ok 1000 [sob 1005; eob 1020; sob 1025] 32 idle))
  = true.
Proof.
  split; [reflexivity|].
  exact (transmit_with_tags_burst_state hw_ok 1000 32
           [sob 1005; eob 1020; sob 1025] idle eq_refl).
Defined.

Lemma burst_across_calls_witness :
  _in_burst idle = false /\
  snd (transmit_with_tags hw_ok 1064 [eob 1070] 32
         (snd (transmit_with_tags hw_ok 1032 [] 32
                 (snd (transmit_with_tags hw_ok 1000 [sob 1010] 32 idle))))) =
  set_in_burst false
    (log_calls [tx_range 10 (32 - 1) flags_burst_start;
                SyncTx {| tx_buf := Samples 0; tx_count := 32;
                          tx_meta := Some meta_zero |};
                tx_range 0 6 0; tx_flush] idle).
Proof.
  split; [reflexivity|].
  refine (proj2 (proj2 (proj2
            (burst_across_calls hw_ok 1000 1032 1064 32 32 32 10 6
               (sob 1010) (eob 1070) idle
               eq_refl eq_refl eq_refl _ _ eq_refl eq_refl _ _ _)))).
  - split; [discriminate|reflexivity].
  - discriminate.
  - discriminate.
  - reflexivity.
  - intros i _. reflexivity.
Defined.

Lemma start_succeeds_witness :
  (forall i, (i < S (max_channels cfg_two))%nat ->
             hw_ok (length (calls (@fresh)) + i)%nat = 0) /\
  start hw_ok cfg_two fresh =
  (Returned true,
   {| _16icbuf := Some (replicate 8 None); _32fcbuf := Some (replicate 4 None);
      _in_burst := false; _running := true; _failures := 0;
      calls := [SyncConfig; EnableModule 0 true; EnableModule 1 false] |}).
Proof.
  assert (H : forall i, (i < S (max_channels cfg_two))%nat ->
                        hw_ok (length (calls fresh) + i)%nat = 0)
    by (intros i _; reflexivity).
  split; [exact H|].
  exact (start_succeeds hw_ok cfg_two fresh H).
Defined.

Lemma start_throws_frame_witness :
  fst (start (hw_fail_first 1) cfg_plain mid_burst) =
    Throw (-1) "bladerf_sync_config failed" /\
  _running (snd (start (hw_fail_first 1) cfg_plain mid_burst)) = true /\
  _16icbuf (snd (start (hw_fail_first 1) cfg_plain mid_burst)) =
    _16icbuf mid_burst /\
  _in_burst (snd (start (hw_fail_first 1) cfg_plain mid_burst)) = false.
Proof.
  split; [reflexivity|].
  destruct (start_throws_frame (hw_fail_first 1) cfg_plain mid_burst (-1)
              "bladerf_sync_config failed" eq_refl)
    as (_ & Hr & H16 & _ & Hb).
  split; [exact Hr|]. split; [exact H16|exact Hb].
Defined.

Lemma stop_succeeds_witness :
  _running idle = true /\
  stop hw_ok cfg_two idle =
  (Returned true,
   {| _16icbuf := None; _32fcbuf := None; _in_burst := false;
      _running := false; _failures := 0;
      calls := [EnableModule 0 true; EnableModule 1 false] |}).
Proof.
  split; [reflexivity|].
  exact (stop_succeeds hw_ok cfg_two idle eq_refl
           (fun i _ => eq_refl)).
Defined.

Lemma stop_throws_leaks_witness :
  fst (stop (hw_fail_first 1) cfg_plain idle) =
    Throw (-1) "bladerf_enable_module failed" /\
  _16icbuf (snd (stop (hw_fail_first 1) cfg_plain idle)) =
    Some (replicate 8 None) /\
  stop hw_ok cfg_plain (snd (stop (hw_fail_first 1) cfg_plain idle)) =
    (Returned true, snd (stop (hw_fail_first 1) cfg_plain idle)).
Proof.
  split; [reflexivity|].
  destruct (stop_throws_leaks (hw_fail_first 1) cfg_plain idle (-1)
              "bladerf_enable_module failed" hw_ok eq_refl)
    as (_ & _ & _ & H16 & _ & Hagain).
  split; [exact H16|exact Hagain].
Defined.

Lemma start_stop_round_trip_witness :
  (forall i, (i < S (2 * max_channels cfg_two))%nat ->
             hw_ok (length (calls (@fresh)) + i)%nat = 0) /\
  stop hw_ok cfg_two (snd (start hw_ok cfg_two fresh)) =
  (Returned true,
   {| _16icbuf := None; _32fcbuf := None; _in_burst := false;
      _running := false; _failures := 0;
      calls := [SyncConfig; EnableModule 0 true; EnableModule 1 false;
                EnableModule 0 true; EnableModule 1 false] |}).
Proof.
  assert (H : forall i, (i < S (2 * max_channels cfg_two))%nat ->
                        hw_ok (length (calls fresh) + i)%nat = 0)
    by (intros i _; reflexivity).
  split; [exact H|].
  exact (proj2 (start_stop_round_trip hw_ok cfg_two fresh H)).
Defined.

Lemma work_keeps_running_witness :
  match work (hw_fail_first 1) cfg_plain convert 1 two_samples idle with
  | Some (r, s') =>
      r = WORK_DONE /\ _running s' = true /\
      length <$> _32fcbuf s' = Some 4%nat /\
      length <$> _16icbuf s' = Some 8%nat
  | None => False
  end.
Proof.
  destruct (work (hw_fail_first 1) cfg_plain convert 1 two_samples idle)
    as [[r s']|] eqn:E; [|discriminate E].
  destruct (work_keeps_running (hw_fail_first 1) cfg_plain convert 1
              two_samples idle r s' E) as (Hr & H32 & H16 & _).
  split; [now injection E as <- _|].
  split; [exact Hr|]. split; [exact H32|exact H16].
Defined.

Lemma work_convert_one_stream_witness :
  input_items two_samples !! 0%nat = Some [(1, 2); (3, 4)] /\
  work_convert cfg_plain convert two_samples idle =
  Some (set_bufs
          (Some [Some 2000; Some 4000; Some 6000; Some 8000;
                 None; None; None; None])
          (Some [Some (1, 2); Some (3, 4); None; None]) idle).
Proof.
  split; [reflexivity|].
  refine (work_convert_one_stream cfg_plain convert two_samples idle
            (replicate 4 None) (replicate 8 None) [(1, 2); (3, 4)] 2
            _ eq_refl eq_refl eq_refl eq_refl _ _ _ _).
  - apply le_n.
  - discriminate.
  - apply le_n.
  - do 2 apply le_S. apply le_n.
  - do 4 apply le_S. apply le_n.
Defined.

Lemma work_convert_two_streams_witness :
  nstreams cfg_two = 2%nat /\
  work_convert cfg_two convert two_by_four idle =
  Some (set_bufs
          (Some [Some 2000; Some 4000; Some 10000; Some 12000;
                 Some 6000; Some 8000; Some 14000; Some 16000])
          (Some [Some (1, 2); Some (5, 6); Some (3, 4); Some (7, 8)]) idle).
Proof.
  split; [reflexivity|].
  refine (work_convert_two_streams cfg_two convert two_by_four idle
            (replicate 4 None) (replicate 8 None)
            [(1, 2); (3, 4); (9, 9); (9, 9)] [(5, 6); (7, 8); (9, 9); (9, 9)]
            2 eq_refl eq_refl eq_refl eq_refl eq_refl _ _ _ _ _).
  - discriminate.
  - do 2 apply le_S. apply le_n.
  - do 2 apply le_S. apply le_n.
  - apply le_n.
  - apply le_n.
Defined.

Lemma work_two_streams_reads_half_witness :
  nstreams cfg_two = 2%nat /\
  work hw_ok cfg_two convert 3 two_by_four idle =
  work hw_ok cfg_two convert 3
    {| noutput_items := 4;
       input_items := [[(1, 2); (3, 4)]; [(5, 6); (7, 8)]];
       tags := []; nitems_read := 0 |} idle.
Proof.
  split; [reflexivity|].
  refine (work_two_streams_reads_half hw_ok cfg_two convert 3 two_by_four idle
            (replicate 4 None)
            [(1, 2); (3, 4); (9, 9); (9, 9)] [(5, 6); (7, 8); (9, 9); (9, 9)]
            2 eq_refl eq_refl eq_refl _ eq_refl _ _ _).
  - split; [discriminate|reflexivity].
  - do 2 apply le_S. apply le_n.
  - do 2 apply le_S. apply le_n.
  - apply le_n.
Defined.

Lemma work_protocol_error_counts_witness :
  work_convert cfg_meta convert two_with_sob mid_burst =
    Some mid_burst_converted /\
  protocol_error 0 (sob 0) (init_locals 2) mid_burst_converted /\
  work hw_ok cfg_meta convert 1 two_with_sob mid_burst =
    Some (WORK_DONE, set_failures 1 mid_burst_converted).
Proof.
  assert (P : protocol_error 0 (sob 0) (init_locals 2) mid_burst_converted)
    by (left; split; reflexivity).
  split; [reflexivity|]. split; [exact P|].
  exact (work_protocol_error_counts hw_ok cfg_meta convert 1 two_with_sob
           mid_burst mid_burst_converted mid_burst_converted [] [] (sob 0)
           (init_locals 2) eq_refl eq_refl eq_refl eq_refl eq_refl P).
Defined.

Lemma work_after_start_witness :
  format_is_meta cfg_plain = false /\
  exists s',
    work hw_ok cfg_plain convert 3 two_samples
      (snd (start hw_ok cfg_plain fresh)) = Some (2, s') /\
    _failures s' = 0 /\ _running s' = true /\
    calls s' = [SyncConfig; EnableModule 0 true; plain_tx].
Proof.
  split; [reflexivity|].
  refine (work_after_start hw_ok cfg_plain convert 3 two_samples fresh
            [(1, 2); (3, 4)] eq_refl eq_refl (fun i _ => eq_refl) eq_refl
            _ _ _ _).
  - discriminate.
  - discriminate.
  - apply le_n.
  - do 2 apply le_S. apply le_n.
Defined.

Lemma set_antenna_restarts_witness :
  _running mid_burst = true /\
  set_antenna hw_ok antenna_ok cfg_plain mid_burst =
  (Returned tt,
   (cfg_plain,
    {| _16icbuf := Some (replicate 8 None); _32fcbuf := Some (replicate 4 None);
       _in_burst := false; _running := true; _failures := 0;
       calls := [EnableModule 0 true; SyncConfig; EnableModule 0 true] |})).
Proof.
  split; [reflexivity|].
  exact (set_antenna_restarts hw_ok antenna_ok cfg_plain cfg_plain mid_burst
           eq_refl eq_refl (fun i _ => eq_refl)).
Defined.

Lemma set_antenna_refused_stops_witness :
  _running idle = true /\
  antenna_bad cfg_plain = Throw (-1) "Invalid antenna" /\
  fst (set_antenna hw_ok antenna_bad cfg_plain idle) =
    Throw (-1) "Invalid antenna" /\
  _running (snd (snd (set_antenna hw_ok antenna_bad cfg_plain idle))) = false.
Proof.
  split; [reflexivity|]. split; [reflexivity|].
  destruct (set_antenna_refused_stops hw_ok antenna_bad convert 3 cfg_plain
              idle (-1) "Invalid antenna" two_samples eq_refl eq_refl
              (fun i _ => eq_refl)) as [Hset _].
  rewrite Hset. split; reflexivity.
Defined.
